(** * pr-reader: the cache, the token validator, the paged fetcher and the
    query stage, embedded from the TypeScript sources.

    Conventions of the embedding.
    - A JavaScript string is a [string]; every [ascii] stands for one UTF-16
      code unit below 256, so [String.length] is the [length] property.
    - An integer-valued JavaScript number is a [Z]; where the source can
      produce [NaN] the number is a [JsNumber] (an [option Z], [None] = NaN).
    - [Date.now()] is an explicit argument of the operation that reads it.
    - The process-wide cache is a [gmap] from keys to entries, threaded
      through the operations that read or write it.
    - Arrays are heap objects: a store maps an array reference to its
      elements, so that "a new array" and "the same array" differ. *)

From Stdlib Require Import ZArith List Ascii String Sorted Permutation Lia.
From stdpp Require Import gmap strings list sorting pretty.
From Equations Require Import Equations.
From Equations.Prop Require Import Logic.

Local Open Scope Z_scope.
Local Open Scope string_scope.

(** ** String primitives of the host (ECMAScript) used by the sources *)

Module Js.

(** [s.startsWith(p)] *)
Fixpoint startsWith (p s : string) : bool :=
  match p, s with
  | EmptyString, _ => true
  | String _ _, EmptyString => false
  | String a p', String b s' => if Ascii.eqb a b then startsWith p' s' else false
  end.

(** [s.includes(sub)] *)
Fixpoint includes (sub s : string) : bool :=
  if startsWith sub s then true
  else match s with
       | EmptyString => false
       | String _ s' => includes sub s'
       end.

(** WhiteSpace and LineTerminator code units below 256: TAB, LF, VT, FF,
    CR, SPACE and NO-BREAK SPACE. *)
Definition isWhiteSpace (c : ascii) : bool :=
  let n := nat_of_ascii c in
  ((9 <=? n) && (n <=? 13) || (n =? 32) || (n =? 160))%nat.

Fixpoint trimStart (s : string) : string :=
  match s with
  | String c s' => if isWhiteSpace c then trimStart s' else s
  | EmptyString => EmptyString
  end.

Fixpoint trimEnd (s : string) : string :=
  match s with
  | EmptyString => EmptyString
  | String c s' =>
      match trimEnd s' with
      | EmptyString => if isWhiteSpace c then EmptyString else String c EmptyString
      | t => String c t
      end
  end.

(** [s.trim()] *)
Definition trim (s : string) : string := trimEnd (trimStart s).

(** [toLowerCase] on one code unit below 256: A-Z, and the Latin-1
    capitals U+00C0..U+00DE except the multiplication sign U+00D7. *)
Definition lowerUnit (c : ascii) : ascii :=
  let n := nat_of_ascii c in
  if ((65 <=? n) && (n <=? 90)
      || (192 <=? n) && (n <=? 222) && negb (n =? 215))%nat
  then ascii_of_nat (n + 32) else c.

Fixpoint toLowerCase (s : string) : string :=
  match s with
  | EmptyString => EmptyString
  | String c s' => String (lowerUnit c) (toLowerCase s')
  end.

(** One code unit matched by the class [[a-f0-9]] under the [i] flag. *)
Definition isHexDigit (c : ascii) : bool :=
  let n := nat_of_ascii c in
  ((48 <=? n) && (n <=? 57) || (97 <=? n) && (n <=? 102)
   || (65 <=? n) && (n <=? 70))%nat.

Fixpoint allUnits (p : ascii -> bool) (s : string) : bool :=
  match s with
  | EmptyString => true
  | String c s' => p c && allUnits p s'
  end.

(** [/^[a-f0-9]+$/i.test(s)]: one or more units, all of them hex digits. *)
Definition testHex (s : string) : bool :=
  match s with
  | EmptyString => false
  | String _ _ => allUnits isHexDigit s
  end.

(** Truthiness of a string: every string but the empty one. *)
Definition truthy (s : string) : bool :=
  match s with EmptyString => false | String _ _ => true end.

(** [x.repeat(n)] for a one-unit string. *)
Fixpoint repeatUnit (c : ascii) (n : nat) : string :=
  match n with
  | O => EmptyString
  | S n' => String c (repeatUnit c n')
  end.

(** [s.split(sep)] for a separator of one code unit: the parts between the
    occurrences of the separator, one part more than there are occurrences. *)
Fixpoint split (sep : ascii) (s : string) : list string :=
  match s with
  | EmptyString => [EmptyString]
  | String c s' =>
      if Ascii.eqb c sep then EmptyString :: split sep s'
      else match split sep s' with
           | part :: parts => String c part :: parts
           | [] => [String c EmptyString]
           end
  end.

(** [s.replace(/[...]/g, '')] for the character class decided by [p]. *)
Fixpoint removeUnits (p : ascii -> bool) (s : string) : string :=
  match s with
  | EmptyString => EmptyString
  | String c s' => if p c then removeUnits p s' else String c (removeUnits p s')
  end.

End Js.

(** ** src/services/cache.service.ts *)

Module CacheService.

Record CacheEntry (T : Type) : Type := mkEntry
  { data : T; timestamp : Z; ttl : Z }.
Arguments mkEntry {T} _ _ _.
Arguments data {T} _.
Arguments timestamp {T} _.
Arguments ttl {T} _.

(** 5 minutes in milliseconds *)
Definition defaultTTL : Z := 5 * 60 * 1000.

Section Store.
Context {T : Type}.

(** The private [Map<string, CacheEntry>] of the singleton. *)
Local Abbreviation store := (gmap string (CacheEntry T)).

(** [set(key, data, ttl?)], [now] being the value of [Date.now()]. *)
Definition set (now : Z) (key : string) (d : T) (t : option Z)
    (c : store) : store :=
  <[key := mkEntry d now (default defaultTTL t)]> c.

(** [get(key)]: the returned value ([None] for [null]) and the store
    left behind. *)
Definition get (now : Z) (key : string) (c : store) : option T * store :=
  match c !! key with
  | None => (None, c)
  | Some entry =>
      if now - timestamp entry >? ttl entry
      then (None, base.delete key c)
      else (Some (data entry), c)
  end.

(** [has(key)] *)
Definition has (now : Z) (key : string) (c : store) : bool * store :=
  let '(r, c') := get now key c in (bool_decide (is_Some r), c').

(** [delete(key)] *)
Definition delete (key : string) (c : store) : bool * store :=
  (bool_decide (is_Some (c !! key)), base.delete key c).

(** [clear()] *)
Definition clear (c : store) : store := ∅.

(** [getStats()]: the size and the set of keys held. *)
Definition getStats (c : store) : nat * gset string := (size c, dom c).

End Store.

(** [generateKey(owner, repo, suffix?)] *)
Definition generateKey (owner repo : string) (suffix : option string) : string :=
  let base := owner ++ "/" ++ repo in
  match suffix with
  | Some s => if Js.truthy s then base ++ ":" ++ s else base
  | None => base
  end.

End CacheService.

(** ** src/utils/validator.ts *)

Module Validator.

(** [isValidTokenFormat(token)] *)
Definition isValidTokenFormat (token : string) : bool :=
  if negb (Js.truthy token) then false
  else
    let trimmed := Js.trim token in
    (40 <=? String.length trimmed)%nat
    && (Js.startsWith "ghp_" trimmed
        || Js.startsWith "github_pat_" trimmed
        || Js.testHex trimmed).

(** [isValidRepoFormat(repo)] *)
Definition isValidRepoFormat (repo : string) : bool :=
  if negb (Js.truthy repo) then false
  else
    let parts := Js.split "/" repo in
    (length parts =? 2)%nat
    && (0 <? String.length (nth 0 parts ""))%nat
    && (0 <? String.length (nth 1 parts ""))%nat.

(** [parseRepo(repo)]: the owner and the repository name, [None] for
    [null]. *)
Definition parseRepo (repo : string) : option (string * string) :=
  if negb (isValidRepoFormat repo) then None
  else
    let parts := Js.split "/" repo in
    Some (nth 0 parts "", nth 1 parts "").

(** The character class of [sanitizeInput]: the angle brackets, the double
    and the single quote, the ampersand. *)
Definition isDangerous (c : ascii) : bool :=
  let n := nat_of_ascii c in
  ((n =? 60) || (n =? 62) || (n =? 34) || (n =? 39) || (n =? 38))%nat.

(** [sanitizeInput(input)] *)
Definition sanitizeInput (input : string) : string :=
  if negb (Js.truthy input) then ""
  else Js.trim (Js.removeUnits isDangerous input).

End Validator.


(** ** src/types/github.types.ts *)

Module Types.

Record GitHubUser : Type := mkUser
  { login : string; user_id : Z; avatar_url : string; user_html_url : string }.

Record GitHubLabel : Type := mkLabel
  { label_id : Z; name : string; color : string; description : option string }.

(** ['open' | 'closed'] *)
Inductive PullRequestState : Type := StateOpen | StateClosed.

Record PullRequest : Type := mkPullRequest
  { pr_id : Z;
    number : Z;
    title : string;
    state : PullRequestState;
    user : GitHubUser;
    body : option string;
    created_at : string;
    updated_at : string;
    closed_at : option string;
    merged_at : option string;
    html_url : string;
    draft : bool;
    labels : list GitHubLabel;
    requested_reviewers : list GitHubUser;
    comments : Z;
    review_comments : Z;
    commits : Z;
    additions : Z;
    deletions : Z;
    changed_files : Z }.

Record PaginationInfo : Type := mkPagination
  { page : Z; perPage : Z; hasNextPage : bool; totalFetched : Z }.

(** The literal types of [FetchPRsOptions] and [SortOptions], with the
    strings they stand for. *)
Inductive QueryState : Type := QOpen | QClosed | QAll.
Inductive QuerySort : Type := QCreated | QUpdated | QPopularity | QLongRunning.
Inductive Direction : Type := Asc | Desc.

Definition queryStateText (s : QueryState) : string :=
  match s with QOpen => "open" | QClosed => "closed" | QAll => "all" end.

Definition querySortText (s : QuerySort) : string :=
  match s with
  | QCreated => "created"
  | QUpdated => "updated"
  | QPopularity => "popularity"
  | QLongRunning => "long-running"
  end.

Definition directionText (d : Direction) : string :=
  match d with Asc => "asc" | Desc => "desc" end.

(** [FetchPRsOptions]; an optional property that is absent is [None]. *)
Record FetchPRsOptions : Type := mkFetchOptions
  { owner : string;
    repo : string;
    opt_state : option QueryState;
    opt_sort : option QuerySort;
    opt_direction : option Direction;
    opt_perPage : option Z;
    opt_maxPages : option Z }.

(** [FilterOptions] *)
Record FilterOptions : Type := mkFilterOptions
  { author : option string; label : option string; minComments : option Z }.

Inductive SortField : Type := FCreated | FUpdated | FComments | FTitle.

(** [SortOptions] *)
Record SortOptions : Type := mkSortOptions
  { field : SortField; direction : Direction }.

End Types.

(** ** src/services/github.service.ts *)

Module GitHubService.
Import Types.

(** What [octokit.pulls.list] is called with. *)
Record ListParams : Type := mkListParams
  { p_owner : string;
    p_repo : string;
    p_state : QueryState;
    p_sort : QuerySort;
    p_direction : Direction;
    p_per_page : Z;
    p_page : Z }.

(** What it resolves to: the page of pull requests and the [Link] header
    ([None] when the header is missing). *)
Record Response : Type := mkResponse
  { resp_data : list PullRequest; resp_link : option string }.

(** What it can reject with, or what else the [try] block can catch: an
    [Error] that carries a numeric [status] (Octokit's request error), an
    [Error] without one, or a value that is no [Error] at all, given by its
    [String(...)] conversion. *)
Inductive Thrown : Type :=
| RequestError (status : Z) (message : string)
| PlainError (message : string)
| NonError (text : string).

(** The remote API as seen by one fetch: the outcome of each request. *)
Definition Upstream : Type := ListParams -> Response + Thrown.

(** [mapToPullRequest]: a field by field copy. *)
Definition mapToPullRequest (pr : PullRequest) : PullRequest :=
  {| pr_id := pr_id pr;
     number := number pr;
     title := title pr;
     state := state pr;
     user := {| login := login (user pr);
                user_id := user_id (user pr);
                avatar_url := avatar_url (user pr);
                user_html_url := user_html_url (user pr) |};
     body := body pr;
     created_at := created_at pr;
     updated_at := updated_at pr;
     closed_at := closed_at pr;
     merged_at := merged_at pr;
     html_url := html_url pr;
     draft := draft pr;
     labels := map (fun l => {| label_id := label_id l;
                                name := name l;
                                color := color l;
                                description := description l |}) (labels pr);
     requested_reviewers :=
       map (fun r => {| login := login r;
                        user_id := user_id r;
                        avatar_url := avatar_url r;
                        user_html_url := user_html_url r |})
           (requested_reviewers pr);
     comments := comments pr;
     review_comments := review_comments pr;
     commits := commits pr;
     additions := additions pr;
     deletions := deletions pr;
     changed_files := changed_files pr |}.

(** [isOctokitError] *)
Definition isOctokitError (e : Thrown) : bool :=
  match e with RequestError _ _ => true | _ => false end.

(** [getErrorMessage] *)
Definition getErrorMessage (e : Thrown) : string :=
  match e with
  | RequestError _ m => m
  | PlainError m => m
  | NonError t => t
  end.

(** The [catch] block of [fetchPullRequests]: the message of the [Error]
    that is thrown to the caller. *)
Definition fetchErrorMessage (owner repo : string) (e : Thrown) : string :=
  match e with
  | RequestError status message =>
      if (status =? 404)%Z then
        "Repository " ++ owner ++ "/" ++ repo ++ " not found or you don't have access"
      else if (status =? 401)%Z then
        "Authentication failed. Please check your GitHub token"
      else if (status =? 403)%Z then
        if Js.includes "rate limit" message
        then "GitHub API rate limit exceeded. Please try again later"
        else "Access forbidden. Please check your token permissions"
      else "Failed to fetch pull requests: " ++ getErrorMessage e
  | _ => "Failed to fetch pull requests: " ++ getErrorMessage e
  end.

(** The text [rel="next"] looked for in the [Link] header. *)
Definition relNext : string :=
  "rel=" ++ String (ascii_of_nat 34) ("next" ++ String (ascii_of_nat 34) "").

(** [linkHeader ? linkHeader.includes('rel="next"') : false] *)
Definition linkHasNext (link : option string) : bool :=
  match link with
  | Some l => if Js.truthy l then Js.includes relNext l else false
  | None => false
  end.

(** The variables of the page loop, and the requests issued so far (oldest
    first). *)
Record LoopState : Type := mkLoop
  { allPRs : list PullRequest;
    currentPage : Z;
    loopHasNext : bool;
    issued : list ListParams }.

Inductive LoopOutcome : Type :=
| Completed (st : LoopState)
| Threw (e : Thrown) (st : LoopState).

(** The request for page [n] of a query; [q] carries everything but the
    page number. *)
Definition pageRequest (q : ListParams) (n : Z) : ListParams :=
  {| p_owner := p_owner q; p_repo := p_repo q; p_state := p_state q;
     p_sort := p_sort q; p_direction := p_direction q;
     p_per_page := p_per_page q; p_page := n |}.

(** [while (hasNextPage && currentPage <= maxPages) { ... }] *)
Equations? pageLoop (api : Upstream) (q : ListParams) (maxPages : Z)
    (st : LoopState) : LoopOutcome
    by wf (Z.to_nat (maxPages + 1 - currentPage st)) lt :=
pageLoop api q maxPages st
  with inspect (loopHasNext st && (currentPage st <=? maxPages)%Z) := {
  | exist _ false _ => Completed st
  | exist _ true Hcond
      with api (pageRequest q (currentPage st)) := {
      | inr e =>
          Threw e {| allPRs := allPRs st;
                     currentPage := currentPage st;
                     loopHasNext := loopHasNext st;
                     issued := issued st ++ [pageRequest q (currentPage st)] |}
      | inl response with resp_data response := {
          | [] =>
              Completed {| allPRs := allPRs st;
                           currentPage := currentPage st;
                           loopHasNext := false;
                           issued := issued st ++ [pageRequest q (currentPage st)] |}
          | d :: ds =>
              pageLoop api q maxPages
                {| allPRs := allPRs st ++ map mapToPullRequest (d :: ds);
                   currentPage := currentPage st + 1;
                   loopHasNext := linkHasNext (resp_link response);
                   issued := issued st ++ [pageRequest q (currentPage st)] |} } } }.
Proof.
  apply andb_prop in Hcond as [_ Hle%Z.leb_le]. simpl. lia.
Qed.

(** The value a successful fetch resolves to. *)
Record FetchResult : Type := mkFetchResult
  { prs : list PullRequest; pagination : PaginationInfo }.

(** The cache key of a fetch: the defaults are applied first. *)
Definition cacheKey (options : FetchPRsOptions) : string :=
  let state := default QOpen (opt_state options) in
  let sort := default QCreated (opt_sort options) in
  let direction := default Desc (opt_direction options) in
  CacheService.generateKey (owner options) (repo options)
    (Some ("prs-" ++ queryStateText state ++ "-" ++ querySortText sort
             ++ "-" ++ directionText direction)).

(** The loop variables before the first iteration. *)
Definition initialLoop : LoopState :=
  {| allPRs := []; currentPage := 1; loopHasNext := true; issued := [] |}.

(** [fetchPullRequests(options)].  [tLookup] and [tStore] are the values of
    [Date.now()] when the cache is read and when it is written.  The result
    is the outcome (the message of the thrown [Error], or the resolved
    value), the cache left behind and the requests sent to the API. *)
Definition fetchPullRequests (api : Upstream) (tLookup tStore : Z)
    (options : FetchPRsOptions)
    (cache : gmap string (CacheService.CacheEntry FetchResult))
    : (string + FetchResult)
      * gmap string (CacheService.CacheEntry FetchResult)
      * list ListParams :=
  let state := default QOpen (opt_state options) in
  let sort := default QCreated (opt_sort options) in
  let direction := default Desc (opt_direction options) in
  let perPage := default 30 (opt_perPage options) in
  let maxPages := default 5 (opt_maxPages options) in
  let key := cacheKey options in
  match CacheService.get tLookup key cache with
  | (Some cached, cache1) => (inr cached, cache1, [])
  | (None, cache1) =>
      let q := {| p_owner := owner options; p_repo := repo options;
                  p_state := state; p_sort := sort; p_direction := direction;
                  p_per_page := perPage; p_page := 1 |} in
      match pageLoop api q maxPages initialLoop with
      | Completed st =>
          let result :=
            {| prs := allPRs st;
               pagination :=
                 {| page := currentPage st - 1;
                    perPage := perPage;
                    hasNextPage := loopHasNext st;
                    totalFetched := Z.of_nat (length (allPRs st)) |} |} in
          (inr result, CacheService.set tStore key result None cache1, issued st)
      | Threw e st =>
          (inl (fetchErrorMessage (owner options) (repo options) e),
           cache1, issued st)
      end
  end.

(** The constructor, [new GitHubService(token)]: the message of the [Error]
    thrown, or the credential the new service holds. *)
Definition newGitHubService (token : string) : string + string :=
  if negb (Js.truthy token) || String.eqb (Js.trim token) ""
  then inl "GitHub token is required"
  else inr token.

End GitHubService.

(** ** Arrays as heap objects

    An array value is a reference; the heap maps each live reference to the
    elements of its array.  [spread] is [[...xs]], [arrayFilter] is
    [xs.filter(p)] (both build a new array), [arraySort] is [xs.sort(cmp)]
    (which reorders the array in place). *)

Module JsArray.

(** [None] is NaN. *)
Definition JsNumber : Type := option Z.

Definition numNeg (v : JsNumber) : JsNumber := Z.opp <$> v.

Definition numSub (v w : JsNumber) : JsNumber :=
  match v, w with
  | Some x, Some y => Some (x - y)
  | _, _ => None
  end.

Definition isNegative (v : JsNumber) : bool :=
  match v with Some x => (x <? 0)%Z | None => false end.

Definition isPositive (v : JsNumber) : bool :=
  match v with Some x => (0 <? x)%Z | None => false end.

Section Arrays.
Context {A : Type}.

(** The elements of the array behind a reference. *)
Definition elements (h : gmap nat (list A)) (r : nat) : list A :=
  default [] (h !! r).

Definition alloc (xs : list A) (h : gmap nat (list A)) : nat * gmap nat (list A) :=
  let r := fresh (dom h) in (r, <[r := xs]> h).

Definition spread (r : nat) (h : gmap nat (list A)) : nat * gmap nat (list A) :=
  alloc (elements h r) h.

Definition arrayFilter (p : A -> bool) (r : nat) (h : gmap nat (list A))
    : nat * gmap nat (list A) :=
  alloc (List.filter p (elements h r)) h.

(** Where the comparator is consistent, the order [Array.prototype.sort]
    produces is fixed by the language: ascending by the comparator, elements
    that compare equal (result 0 or NaN) keeping their relative order.  The
    stable insertion sort below computes it: [x], which comes from before
    every element of [l], goes behind [y] only when [cmp x y] is positive. *)
Fixpoint insertSorted (cmp : A -> A -> JsNumber) (x : A) (l : list A) : list A :=
  match l with
  | [] => [x]
  | y :: l' => if isPositive (cmp x y) then y :: insertSorted cmp x l' else x :: l
  end.

Definition stableSort (cmp : A -> A -> JsNumber) (l : list A) : list A :=
  foldr (insertSorted cmp) [] l.

Definition arraySort (cmp : A -> A -> JsNumber) (r : nat) (h : gmap nat (list A))
    : gmap nat (list A) :=
  <[r := stableSort cmp (elements h r)]> h.

(** No two elements at different positions compare equal: every comparison
    of an earlier with a later element is a number other than 0. *)
Fixpoint noTies (cmp : A -> A -> JsNumber) (l : list A) : bool :=
  match l with
  | [] => true
  | x :: l' =>
      forallb (fun y => isNegative (cmp x y) || isPositive (cmp x y)) l'
      && noTies cmp l'
  end.

End Arrays.
End JsArray.

(** ** src/utils/formatter.ts *)

Module Formatter.
Import Types JsArray.

(** [chalk.yellow(text)] for a [text] free of ESC and LF, which is all it is
    applied to below: the text itself when colours are off, else the text
    between the codes that switch yellow on and the foreground back. *)
Definition chalkYellow (colours : bool) (text : string) : string :=
  if colours
  then String (ascii_of_nat 27) "[33m" ++ text ++ String (ascii_of_nat 27) "[39m"
  else text.

Section Presenter.
(** Whether chalk emits colour codes, and the three renderers of a list that
    is not empty: [JSON.stringify(prs, null, 2)], [formatDetailed] and
    [formatCompact]. *)
Variable colours : bool.
Variables jsonStringify formatDetailed formatCompact : list PullRequest -> string.

(** [formatPullRequests(prs, format)]; [format] is the string received. *)
Definition formatPullRequests (prs : list PullRequest) (format : string) : string :=
  if (length prs =? 0)%nat then chalkYellow colours "No pull requests found."
  else if String.eqb format "json" then jsonStringify prs
  else if String.eqb format "detailed" then formatDetailed prs
  else formatCompact prs.

End Presenter.

(** The three stages of [filterPullRequests] as predicates on one item. *)
Definition authorMatches (a : string) (pr : PullRequest) : bool :=
  String.eqb (Js.toLowerCase (login (user pr))) (Js.toLowerCase a).

Definition labelMatches (l : string) (pr : PullRequest) : bool :=
  existsb (fun lb => String.eqb (Js.toLowerCase (name lb)) (Js.toLowerCase l))
          (labels pr).

Definition commentsAtLeast (n : Z) (pr : PullRequest) : bool :=
  (n <=? comments pr + review_comments pr)%Z.

(** [filterPullRequests(prs, options)]: the reference of the result and the
    heap left behind. *)
Definition filterPullRequests (h : gmap nat (list PullRequest)) (prs : nat)
    (options : FilterOptions) : nat * gmap nat (list PullRequest) :=
  let '(filtered, h) := spread prs h in
  let '(filtered, h) :=
    match author options with
    | Some a => if Js.truthy a then arrayFilter (authorMatches a) filtered h
                else (filtered, h)
    | None => (filtered, h)
    end in
  let '(filtered, h) :=
    match label options with
    | Some l => if Js.truthy l then arrayFilter (labelMatches l) filtered h
                else (filtered, h)
    | None => (filtered, h)
    end in
  let '(filtered, h) :=
    match minComments options with
    | Some n => arrayFilter (commentsAtLeast n) filtered h
    | None => (filtered, h)
    end in
  (filtered, h).

Section Sorting.
(** The host: [new Date(s).getTime()] (NaN for a string that is no date) and
    [a.localeCompare(b)]. *)
Variable getTime : string -> JsNumber.
Variable localeCompare : string -> string -> Z.

(** [compareValue] after the [switch] on the field. *)
Definition compareValue (f : SortField) (a b : PullRequest) : JsNumber :=
  match f with
  | FCreated => numSub (getTime (created_at a)) (getTime (created_at b))
  | FUpdated => numSub (getTime (updated_at a)) (getTime (updated_at b))
  | FComments =>
      Some (comments a + review_comments a - (comments b + review_comments b))
  | FTitle => Some (localeCompare (title a) (title b))
  end.

(** The callback handed to [sort]. *)
Definition comparator (options : SortOptions) (a b : PullRequest) : JsNumber :=
  match direction options with
  | Asc => compareValue (field options) a b
  | Desc => numNeg (compareValue (field options) a b)
  end.

(** [sortPullRequests(prs, options)]: the reference of the result and the
    heap left behind. *)
Definition sortPullRequests (h : gmap nat (list PullRequest)) (prs : nat)
    (options : SortOptions) : nat * gmap nat (list PullRequest) :=
  let '(sorted, h) := spread prs h in
  (sorted, arraySort (comparator options) sorted h).

End Sorting.
Section Dates.
(** The host: [new Date(s).getTime()] and
    [new Date(s).toLocaleDateString('en-US', ...)]. *)
Variable getTime : string -> JsNumber.
Variable toLocaleDateString : string -> string.

(** [formatDate(dateString)], [now] being the value of [new Date().getTime()].
    For a string that is no date every difference is NaN and every
    comparison fails, which leaves the last [return].  The quotients are
    those of [Math.floor] after the division, which is the exact rounded-down
    quotient for every age below 2^53 milliseconds. *)
Definition formatDate (now : Z) (dateString : string) : string :=
  match getTime dateString with
  | None => toLocaleDateString dateString
  | Some t =>
      let diffMs := now - t in
      let diffDays := diffMs / (1000 * 60 * 60 * 24) in
      let diffHours := diffMs / (1000 * 60 * 60) in
      let diffMinutes := diffMs / (1000 * 60) in
      if (diffMinutes <? 60)%Z then
        pretty diffMinutes ++ " minute"
          ++ (if negb (diffMinutes =? 1)%Z then "s" else "") ++ " ago"
      else if (diffHours <? 24)%Z then
        pretty diffHours ++ " hour"
          ++ (if negb (diffHours =? 1)%Z then "s" else "") ++ " ago"
      else if (diffDays <? 30)%Z then
        pretty diffDays ++ " day"
          ++ (if negb (diffDays =? 1)%Z then "s" else "") ++ " ago"
      else toLocaleDateString dateString
  end.

End Dates.
End Formatter.

(** ** src/index.ts *)

Module Cli.

(** [getGitHubToken()], [env] being [process.env.GITHUB_TOKEN]: the token
    returned, [None] when the process exits with code 1 instead. *)
Definition getGitHubToken (env : option string) : option string :=
  match env with
  | None => None
  | Some token =>
      if negb (Js.truthy token) then None
      else if negb (Validator.isValidTokenFormat token) then None
      else Some token
  end.

End Cli.

(** ** The token shape in the words of the specification

    "length at least 40 and (prefix [ghp_] or prefix [github_pat_] or pure
    hex)", read on the string as it is given. *)

Definition specTokenShape (s : string) : Prop :=
  (40 <= String.length s)%nat
  /\ (Js.startsWith "ghp_" s = true
      \/ Js.startsWith "github_pat_" s = true
      \/ Js.allUnits Js.isHexDigit s = true).

(** ** The stop of the page loop in the words of the specification

    "The upstream's last response still indicated a further page": the last
    request the fetch issued was answered, and the answer carried a [Link]
    header with [rel="next"]. *)

Definition lastIndicatedNext (api : GitHubService.Upstream)
    (log : list GitHubService.ListParams) : Prop :=
  exists rq resp,
    last log = Some rq /\ api rq = inl resp
    /\ GitHubService.linkHasNext (GitHubService.resp_link resp) = true.

(** ** The page loop: invariant and exits *)

Section LoopSpec.
Import Types GitHubService.
Variables (api : Upstream) (q : ListParams) (maxPages : Z).

(** A request that was answered with a page that is not empty. *)
Definition fullPage (rq : ListParams) : Prop :=
  exists resp, api rq = inl resp /\ resp_data resp <> [].

(** What holds whenever the loop test is evaluated: the page counter is one
    more than the number of requests issued, the last of which was for the
    page before it; every request was answered with a page that is not
    empty; [hasNextPage] is what the last answer said, or still [true]. *)
Record LoopInv (st : LoopState) : Prop := mkInv
  { inv_page : currentPage st = 1 + Z.of_nat (length (issued st));
    inv_full : Forall fullPage (issued st);
    inv_next :
      match last (issued st) with
      | None => loopHasNext st = true
      | Some rq => exists resp,
          p_page rq = currentPage st - 1 /\ api rq = inl resp
          /\ loopHasNext st = linkHasNext (resp_link resp)
      end }.

(** The three ways out of the loop: the test fails; a page comes back empty
    ([break]); a request throws. *)
Inductive LoopExit : LoopOutcome -> Prop :=
| ExitTest st :
    LoopInv st ->
    loopHasNext st && (currentPage st <=? maxPages)%Z = false ->
    LoopExit (Completed st)
| ExitEmpty st resp :
    LoopInv st ->
    currentPage st <= maxPages ->
    api (pageRequest q (currentPage st)) = inl resp ->
    resp_data resp = [] ->
    LoopExit (Completed (mkLoop (allPRs st) (currentPage st) false
                           (issued st ++ [pageRequest q (currentPage st)])))
| ExitThrow st e :
    LoopInv st ->
    currentPage st <= maxPages ->
    api (pageRequest q (currentPage st)) = inr e ->
    LoopExit (Threw e (mkLoop (allPRs st) (currentPage st) (loopHasNext st)
                         (issued st ++ [pageRequest q (currentPage st)]))).

End LoopSpec.

(** A thrown value that is not a request error with status 404, 401 or
    403. *)
Definition otherFailure (e : GitHubService.Thrown) : Prop :=
  match e with
  | GitHubService.RequestError status _ =>
      status <> 404 /\ status <> 401 /\ status <> 403
  | _ => True
  end.

(** ** The filter in the words of the specification

    "Conjunctive application of every present criterion; absent criteria
    impose no constraint."  A criterion is present when the source applies
    it: an author or a label that is a string other than the empty one, a
    comment threshold that is defined. *)

Definition authorCriterion (options : Types.FilterOptions)
    : option (Types.PullRequest -> bool) :=
  match Types.author options with
  | Some a => if Js.truthy a then Some (Formatter.authorMatches a) else None
  | None => None
  end.

Definition labelCriterion (options : Types.FilterOptions)
    : option (Types.PullRequest -> bool) :=
  match Types.label options with
  | Some l => if Js.truthy l then Some (Formatter.labelMatches l) else None
  | None => None
  end.

Definition commentsCriterion (options : Types.FilterOptions)
    : option (Types.PullRequest -> bool) :=
  Formatter.commentsAtLeast <$> Types.minComments options.

Definition holds (criterion : option (Types.PullRequest -> bool))
    (pr : Types.PullRequest) : bool :=
  match criterion with Some p => p pr | None => true end.

Definition matchesCriteria (options : Types.FilterOptions)
    (pr : Types.PullRequest) : bool :=
  holds (authorCriterion options) pr
  && (holds (labelCriterion options) pr
      && holds (commentsCriterion options) pr).

(** One stage of the filter: a criterion that is present builds a new array,
    one that is absent leaves the reference as it is. *)
Definition stage (criterion : option (Types.PullRequest -> bool))
    (rh : nat * gmap nat (list Types.PullRequest))
    : nat * gmap nat (list Types.PullRequest) :=
  match criterion with
  | Some p => JsArray.arrayFilter p rh.1 rh.2
  | None => rh
  end.

(** A reference that was not in use in [h0], to an array of [xs], in a heap
    that still holds every array of [h0]. *)
Definition freshArray {A : Type} (h0 : gmap nat (list A)) (xs : list A)
    (rh : nat * gmap nat (list A)) : Prop :=
  rh.2 !! rh.1 = Some xs /\ h0 ⊆ rh.2 /\ h0 !! rh.1 = None.

(** ** The host's string comparison

    [localeCompare] orders strings consistently: swapping the arguments flips
    the sign of the result, and "before" is transitive. *)

Definition consistentCollation (localeCompare : string -> string -> Z) : Prop :=
  (forall a b, Z.sgn (localeCompare b a) = - Z.sgn (localeCompare a b))
  /\ (forall a b c,
        localeCompare a b < 0 -> localeCompare b c < 0 -> localeCompare a c < 0).

(** ** A host for the examples

    Dates in the form [YYYY-MM-DDTHH:MM:SSZ], the one the API sends, read as
    milliseconds since the epoch; any other string is no date.  Strings
    compared code unit by code unit. *)

Module SampleHost.

Definition digit (c : ascii) : option Z :=
  let n := nat_of_ascii c in
  if ((48 <=? n) && (n <=? 57))%nat then Some (Z.of_nat (n - 48)) else None.

(** Read exactly [n] decimal digits. *)
Fixpoint digits (n : nat) (acc : Z) (s : string) : option (Z * string) :=
  match n, s with
  | O, _ => Some (acc, s)
  | S n', String c s' => d ← digit c; digits n' (10 * acc + d) s'
  | S _, EmptyString => None
  end.

Definition expect (c : ascii) (s : string) : option string :=
  match s with
  | String c' s' => if Ascii.eqb c c' then Some s' else None
  | EmptyString => None
  end.

Definition isLeap (y : Z) : bool :=
  ((y mod 4 =? 0) && negb (y mod 100 =? 0) || (y mod 400 =? 0))%Z.

Definition daysInMonth (y m : Z) : Z :=
  if (m =? 2)%Z then (if isLeap y then 29 else 28)
  else if ((m =? 4) || (m =? 6) || (m =? 9) || (m =? 11))%Z then 30 else 31.

(** Days from 1970-01-01 to the given day of the proleptic Gregorian
    calendar. *)
Definition daysFromCivil (y m d : Z) : Z :=
  let y' := if (m <=? 2)%Z then y - 1 else y in
  let era := y' / 400 in
  let yoe := y' - era * 400 in
  let mp := (m + 9) mod 12 in
  let doy := (153 * mp + 2) / 5 + d - 1 in
  let doe := yoe * 365 + yoe / 4 - yoe / 100 + doy in
  era * 146097 + doe - 719468.

Definition getTime (s : string) : JsArray.JsNumber :=
  '(y, s) ← digits 4 0 s;
  s ← expect "-" s;
  '(mo, s) ← digits 2 0 s;
  s ← expect "-" s;
  '(d, s) ← digits 2 0 s;
  s ← expect "T" s;
  '(hh, s) ← digits 2 0 s;
  s ← expect ":" s;
  '(mi, s) ← digits 2 0 s;
  s ← expect ":" s;
  '(ss, s) ← digits 2 0 s;
  s ← expect "Z" s;
  if negb (Js.truthy s)
     && ((1 <=? mo) && (mo <=? 12) && (1 <=? d) && (d <=? daysInMonth y mo)
         && (hh <=? 23) && (mi <=? 59) && (ss <=? 59))%Z
  then Some ((((daysFromCivil y mo d * 24 + hh) * 60 + mi) * 60 + ss) * 1000)
  else None.

Definition localeCompare (a b : string) : Z :=
  match String.compare a b with
  | Eq => 0
  | Lt => -1
  | Gt => 1
  end.

End SampleHost.

(** ** Predicates on strings *)

(** No code unit of [s] is [c]. *)
Definition freeOf (c : ascii) (s : string) : bool :=
  Js.allUnits (fun x => negb (Ascii.eqb x c)) s.

(** [s] does not begin with white space. *)
Definition startsClean (s : string) : Prop :=
  match s with
  | EmptyString => True
  | String c _ => Js.isWhiteSpace c = false
  end.

(** ** The requests and the items of a fetch *)

(** The request for page [n] that the options of a fetch lead to. *)
Definition optionsRequest (options : Types.FetchPRsOptions) (n : Z)
    : GitHubService.ListParams :=
  GitHubService.mkListParams (Types.owner options) (Types.repo options)
    (default Types.QOpen (Types.opt_state options))
    (default Types.QCreated (Types.opt_sort options))
    (default Types.Desc (Types.opt_direction options))
    (default 30 (Types.opt_perPage options)) n.

(** The requests for the pages 1 to [n] of a query, in this order. *)
Definition pagesUpTo (q : GitHubService.ListParams) (n : nat)
    : list GitHubService.ListParams :=
  map (fun i => GitHubService.pageRequest q (Z.of_nat i)) (seq 1 n).

(** The items a request contributed: those of the page it was answered
    with, none when it failed. *)
Definition pageItems (api : GitHubService.Upstream)
    (rq : GitHubService.ListParams) : list Types.PullRequest :=
  match api rq with
  | inl resp => map GitHubService.mapToPullRequest (GitHubService.resp_data resp)
  | inr _ => []
  end.

(** The loop variables of an outcome. *)
Definition finalState (o : GitHubService.LoopOutcome) : GitHubService.LoopState :=
  match o with
  | GitHubService.Completed st => st
  | GitHubService.Threw _ st => st
  end.

Section TraceSpec.
Import GitHubService.
Variables (api : Upstream) (q : ListParams) (maxPages : Z).

(** The requests issued are those for the pages 1, 2, ... in order, no more
    of them than [maxPages]; the items accumulated are those of the pages
    received, in the order of the requests. *)
Record Traced (st : LoopState) : Prop := mkTraced
  { traced_issued : issued st = pagesUpTo q (length (issued st));
    traced_cap : Z.of_nat (length (issued st)) <= Z.max 0 maxPages;
    traced_items : allPRs st = flat_map (pageItems api) (issued st) }.

End TraceSpec.

(** A request whose answer lets the loop go on: a page with items that
    names a next page. *)
Definition continuing (api : GitHubService.Upstream)
    (rq : GitHubService.ListParams) : Prop :=
  exists resp,
    api rq = inl resp /\ GitHubService.resp_data resp <> []
    /\ GitHubService.linkHasNext (GitHubService.resp_link resp) = true.

(** Every request but the last let the loop go on; so did the last if the
    loop is to go on. *)
Definition Chained (api : GitHubService.Upstream)
    (st : GitHubService.LoopState) : Prop :=
  forall init rq,
    GitHubService.issued st = (init ++ [rq])%list ->
    Forall (continuing api) init
    /\ (GitHubService.loopHasNext st = true -> continuing api rq).

(** ** The kinds of failure of a fetch

    Not found or no access (404), bad credentials (401), rate limited (403
    naming a rate limit), forbidden (any other 403), and the rest. *)

Inductive ErrorKind : Type :=
| NotFound | AuthFailure | RateLimited | Forbidden | Generic.

Definition errorKind (e : GitHubService.Thrown) : ErrorKind :=
  match e with
  | GitHubService.RequestError status message =>
      if (status =? 404)%Z then NotFound
      else if (status =? 401)%Z then AuthFailure
      else if (status =? 403)%Z then
        (if Js.includes "rate limit" message then RateLimited else Forbidden)
      else Generic
  | _ => Generic
  end.

(** ** Comparators that order consistently

    Swapping the arguments of the comparator swaps "positive" and
    "negative", and "not positive" is transitive: the comparator ranks the
    items, several items possibly sharing a rank.  A comparator that can
    answer NaN does not qualify. *)

Definition totalPreorder {A : Type} (cmp : A -> A -> JsArray.JsNumber) : Prop :=
  (forall a b, JsArray.isPositive (cmp a b) = JsArray.isNegative (cmp b a))
  /\ (forall a b c,
        JsArray.isPositive (cmp a b) = false ->
        JsArray.isPositive (cmp b c) = false ->
        JsArray.isPositive (cmp a c) = false).

(** [a] and [b] compare equal: the comparator answers 0 (or NaN). *)
Definition tied {A : Type} (cmp : A -> A -> JsArray.JsNumber) (a b : A) : bool :=
  negb (JsArray.isPositive (cmp a b)) && negb (JsArray.isNegative (cmp a b)).

(** The options that keep one criterion of [options] and drop the others. *)
Definition onlyAuthor (options : Types.FilterOptions) : Types.FilterOptions :=
  Types.mkFilterOptions (Types.author options) None None.
Definition onlyLabel (options : Types.FilterOptions) : Types.FilterOptions :=
  Types.mkFilterOptions None (Types.label options) None.
Definition onlyComments (options : Types.FilterOptions) : Types.FilterOptions :=
  Types.mkFilterOptions None None (Types.minComments options).

(** The plural ending of [formatDate]: none at exactly 1. *)
Definition plural (n : Z) : string := if (n =? 1)%Z then "" else "s".

(** ** Sample data *)

Module Sample.
Import Types.

(** ["ghp_" + "a".repeat(40)], the same behind one space, and a classic
    prefix followed by blanks. *)
Definition classicToken : string := "ghp_" ++ Js.repeatUnit "a" 40.
Definition paddedToken : string := " " ++ classicToken.
Definition blankTailToken : string := "ghp_" ++ Js.repeatUnit " " 40.

Definition alice : GitHubUser :=
  mkUser "alice" 1 "https://example.com/a.png" "https://github.com/alice".

Definition somePR (n : Z) (t : string) (created : string) (c rc : Z)
    : PullRequest :=
  mkPullRequest n n t StateOpen alice None created created None None
    "https://github.com/o/r/pull" false [] [] c rc 1 1 0 1.

Definition bob : GitHubUser :=
  mkUser "Bob" 2 "https://example.com/b.png" "https://github.com/bob".

(** Three pull requests titled Zebra, Alpha and Beta, with 5, 15 and 3
    comments in all; a fourth, by another author, with 15 as well. *)
Definition zebra : PullRequest := somePR 1 "Zebra" "2024-03-01T10:00:00Z" 5 0.
Definition alpha : PullRequest := somePR 2 "Alpha" "2024-03-03T10:00:00Z" 10 5.
Definition beta : PullRequest := somePR 3 "Beta" "2024-03-02T10:00:00Z" 2 1.
Definition gamma : PullRequest :=
  mkPullRequest 4 4 "Gamma" StateOpen bob None "2024-03-04T10:00:00Z"
    "2024-03-04T10:00:00Z" None None "https://github.com/o/r/pull" false
    [mkLabel 1 "Bug" "ff0000" None] [] 15 0 1 1 0 1.

(** A heap whose array 0 holds the first three, and one whose array 0 holds
    two pull requests with equally many comments. *)
Definition heap3 : gmap nat (list PullRequest) := {[ 0%nat := [zebra; alpha; beta] ]}.
Definition heapTie : gmap nat (list PullRequest) := {[ 0%nat := [alpha; gamma] ]}.
Definition heap4 : gmap nat (list PullRequest) :=
  {[ 0%nat := [zebra; alpha; beta; gamma] ]}.

(** A heap with the four pull requests in array 0 and the same in reverse
    order in array 1. *)
Definition heapBoth : gmap nat (list PullRequest) :=
  {[ 0%nat := [zebra; alpha; beta; gamma];
     1%nat := [gamma; beta; alpha; zebra] ]}.

(** A fetch of [o/r] with every option left to its default, and the same
    with a page cap of 0. *)
Definition fetchDefaults : FetchPRsOptions :=
  mkFetchOptions "o" "r" None None None None None.
Definition fetchNoPages : FetchPRsOptions :=
  mkFetchOptions "o" "r" None None None None (Some 0).

(** Upstreams: one that answers 404 to everything, one that has no pull
    request at all, one with an endless supply of full pages. *)
Definition upstream404 : GitHubService.Upstream :=
  fun _ => inr (GitHubService.RequestError 404 "Not Found").
Definition upstreamEmpty : GitHubService.Upstream :=
  fun _ => inl (GitHubService.mkResponse [] None).
Definition upstreamEndless : GitHubService.Upstream :=
  fun rq =>
    inl (GitHubService.mkResponse
           [somePR (GitHubService.p_page rq) "Change" "2024-01-01T00:00:00Z" 0 0]
           (Some ("<https://api.github.com/next>; " ++ GitHubService.relNext))).

(** An upstream whose only page holds one pull request and names no next
    page. *)
Definition upstreamOnePage : GitHubService.Upstream :=
  fun rq =>
    inl (GitHubService.mkResponse
           [somePR (GitHubService.p_page rq) "Change" "2024-01-01T00:00:00Z" 0 0]
           None).

(** The request for page [n] that the default options lead to. *)
Definition defaultRequest (n : Z) : GitHubService.ListParams :=
  GitHubService.mkListParams "o" "r" QOpen QCreated Desc 30 n.

(** The resolved value of a fetch, an empty result standing in when it threw. *)
Definition resolved (out : string + GitHubService.FetchResult)
    : GitHubService.FetchResult :=
  match out with
  | inr r => r
  | inl _ => GitHubService.mkFetchResult [] (mkPagination 0 0 false 0)
  end.

(** An upstream with two pages: Zebra and Alpha on the first, which names
    a next page, Beta on the second, which names none. *)
Definition upstreamTwoPages : GitHubService.Upstream :=
  fun rq =>
    if (GitHubService.p_page rq =? 1)%Z then
      inl (GitHubService.mkResponse [zebra; alpha]
             (Some ("<https://api.github.com/next>; " ++ GitHubService.relNext)))
    else inl (GitHubService.mkResponse [beta] None).

(** The default fetch with another page size and page budget. *)
Definition fetchSmallPages : FetchPRsOptions :=
  mkFetchOptions "o" "r" None None None (Some 10) (Some 1).

(** A cache whose only entry, stored at time 0 with the default TTL under
    the key of [fetchDefaults], holds an earlier empty result. *)
Definition emptyResult : GitHubService.FetchResult :=
  GitHubService.mkFetchResult [] (mkPagination 0 30 false 0).
Definition staleCache : gmap string (CacheService.CacheEntry GitHubService.FetchResult) :=
  {[ GitHubService.cacheKey fetchDefaults :=
       CacheService.mkEntry emptyResult 0 CacheService.defaultTTL ]}.

End Sample.

(** * Properties *)

Section CacheFacts.
Import CacheService.
Context {T : Type}.
Implicit Types (c : gmap string (CacheEntry T)) (k : string).

Lemma get_absent c k now : c !! k = None -> get now k c = (None, c).
Proof. intros H. unfold get. by rewrite H. Qed.

Lemma get_live c k now e :
  c !! k = Some e -> now - timestamp e <= ttl e -> get now k c = (Some (data e), c).
Proof.
  intros H Hle. unfold get. rewrite H.
  destruct (Z.gtb_spec (now - timestamp e) (ttl e)); [lia | done].
Qed.

Lemma get_expired c k now e :
  c !! k = Some e -> ttl e < now - timestamp e ->
  get now k c = (None, base.delete k c).
Proof.
  intros H Hlt. unfold get. rewrite H.
  destruct (Z.gtb_spec (now - timestamp e) (ttl e)); [done | lia].
Qed.

(** What a lookup leaves behind: the store itself, or the store without the
    entry of the key read. *)
Lemma get_store c k now :
  (get now k c).2 = c \/ (get now k c).2 = base.delete k c.
Proof.
  unfold get. destruct (c !! k) as [e|]; [|by left].
  destruct (_ >? _); [by right | by left].
Qed.

Lemma get_miss_no_entry c k now :
  (get now k c).1 = None -> (get now k c).2 !! k = None.
Proof.
  unfold get. destruct (c !! k) as [e|] eqn:E; [|done].
  destruct (_ >? _); simpl; [|done]. intros _. apply lookup_delete_eq.
Qed.

Lemma get_other_keys c k k' now :
  k' <> k -> (get now k c).2 !! k' = c !! k'.
Proof.
  intros Hne. destruct (get_store c k now) as [-> | ->]; [done|].
  by apply lookup_delete_ne.
Qed.

End CacheFacts.

(** C4.  Reading a key back after [set]: the value while
    [now - timestamp <= ttl]; once [now - timestamp > ttl], nothing, and the
    entry is removed from the store; nothing for a key that has no entry.
    [get] is a total function: it has no failure mode. *)
Theorem cache_get_after_set :
  forall (T : Type) (c : gmap string (CacheService.CacheEntry T))
         (k : string) (v : T) (t : option Z) (tSet tGet : Z),
    let c1 := CacheService.set tSet k v t c in
    let lifetime := default CacheService.defaultTTL t in
    (tGet - tSet <= lifetime -> CacheService.get tGet k c1 = (Some v, c1))
    /\ (lifetime < tGet - tSet ->
        CacheService.get tGet k c1 = (None, base.delete k c1)
        /\ (CacheService.get tGet k c1).2 !! k = None)
    /\ (forall (c0 : gmap string (CacheService.CacheEntry T)) (k0 : string),
          c0 !! k0 = None -> CacheService.get tGet k0 c0 = (None, c0)).
Proof.
  intros T c k v t tSet tGet c1 lifetime.
  assert (Hk : c1 !! k = Some (CacheService.mkEntry v tSet lifetime))
    by apply lookup_insert_eq.
  split; [|split].
  - intros Hle. by rewrite (get_live _ _ _ _ Hk).
  - intros Hlt. rewrite (get_expired _ _ _ _ Hk) by done.
    split; [done|]. apply lookup_delete_eq.
  - intros c0 k0. apply get_absent.
Qed.

(** C5.  The two keys of the specification, and the key of a fetch: it is
    the same for two option records that agree, once the defaults are
    applied, on owner, repo, state, sort and direction, whatever their
    [perPage] and [maxPages]. *)
Theorem cache_key_ignores_pagination :
  CacheService.generateKey "o" "r" None = "o/r"
  /\ CacheService.generateKey "o" "r" (Some "x") = "o/r:x"
  /\ forall o1 o2 : Types.FetchPRsOptions,
      Types.owner o1 = Types.owner o2 ->
      Types.repo o1 = Types.repo o2 ->
      default Types.QOpen (Types.opt_state o1)
        = default Types.QOpen (Types.opt_state o2) ->
      default Types.QCreated (Types.opt_sort o1)
        = default Types.QCreated (Types.opt_sort o2) ->
      default Types.Desc (Types.opt_direction o1)
        = default Types.Desc (Types.opt_direction o2) ->
      GitHubService.cacheKey o1 = GitHubService.cacheKey o2.
Proof.
  split; [reflexivity | split; [reflexivity|]].
  intros o1 o2 Ho Hr Hs Hsort Hd. unfold GitHubService.cacheKey.
  by rewrite Ho, Hr, Hs, Hsort, Hd.
Qed.

(** C10.  An empty suffix is an absent suffix: the key is
    [owner + "/" + repo], with no colon appended. *)
Theorem generateKey_empty_suffix :
  forall owner repo : string,
    CacheService.generateKey owner repo (Some "")
      = CacheService.generateKey owner repo None
    /\ CacheService.generateKey owner repo (Some "") = owner ++ "/" ++ repo.
Proof. intros owner repo. split; reflexivity. Qed.

(** C9.  The presenter answers the empty list with the "No pull requests
    found." line for every format, [json] included, before the format is
    looked at: the line is the message in yellow, it contains the message
    and it is not the JSON text of the empty list. *)
Theorem format_empty_list_message :
  forall (colours : bool)
         (jsonStringify formatDetailed formatCompact
            : list Types.PullRequest -> string)
         (format : string),
    let out := Formatter.formatPullRequests colours jsonStringify
                 formatDetailed formatCompact [] format in
    out = Formatter.chalkYellow colours "No pull requests found."
    /\ out = Formatter.formatPullRequests colours jsonStringify
               formatDetailed formatCompact [] "json"
    /\ Js.includes "No pull requests found." out = true
    /\ out <> "[]".
Proof.
  intros colours js fd fc format out.
  assert (Hout : out = Formatter.chalkYellow colours "No pull requests found.")
    by reflexivity.
  split; [done | split; [done|]].
  rewrite Hout. destruct colours; split; try reflexivity; discriminate.
Qed.

Lemma testHex_allUnits (s : string) :
  (40 <= String.length s)%nat -> Js.testHex s = Js.allUnits Js.isHexDigit s.
Proof. destruct s; simpl; [lia | done]. Qed.

(** C6 (as amended).  The validator accepts a token exactly when the token
    with its surrounding white space removed has the shape of the
    specification; the classic token of 44 characters is accepted and
    ["short"] is rejected. *)
Theorem token_format_shape_of_trimmed :
  (forall token : string,
      Validator.isValidTokenFormat token = true
      <-> specTokenShape (Js.trim token))
  /\ Validator.isValidTokenFormat Sample.classicToken = true
  /\ Validator.isValidTokenFormat "short" = false.
Proof.
  split; [|split; reflexivity].
  intros token. unfold Validator.isValidTokenFormat, specTokenShape.
  destruct token as [|a token]; simpl negb; cbv iota.
  { simpl. split; [discriminate | lia]. }
  set (t := Js.trim (String a token)).
  rewrite andb_true_iff, !orb_true_iff, Nat.leb_le.
  split.
  - intros [Hlen H]. split; [done|].
    rewrite <- (testHex_allUnits t Hlen). tauto.
  - intros [Hlen H]. split; [done|].
    rewrite (testHex_allUnits t Hlen). tauto.
Qed.

(** C6, counterexamples to the shape read on the untrimmed string: a valid
    classic token behind one space is accepted although it has neither
    prefix and is not hexadecimal; [ghp_] followed by forty blanks has the
    length and the prefix and is rejected. *)
Lemma token_format_untrimmed_counterexample :
  (Validator.isValidTokenFormat Sample.paddedToken = true
   /\ ~ specTokenShape Sample.paddedToken)
  /\ (Validator.isValidTokenFormat Sample.blankTailToken = false
      /\ specTokenShape Sample.blankTailToken).
Proof.
  split; split.
  - reflexivity.
  - intros [_ [H | [H | H]]]; vm_compute in H; discriminate.
  - reflexivity.
  - split; [vm_compute; lia | left; reflexivity].
Qed.

(** ** The page loop *)

Section PageLoop.
Import Types GitHubService.
Variables (api : Upstream) (q : ListParams) (maxPages : Z).

(** One unfolding of the loop. *)
Lemma pageLoop_unfold (st : LoopState) :
  pageLoop api q maxPages st =
    if loopHasNext st && (currentPage st <=? maxPages)%Z then
      let rq := pageRequest q (currentPage st) in
      match api rq with
      | inr e => Threw e (mkLoop (allPRs st) (currentPage st) (loopHasNext st)
                            (issued st ++ [rq]))
      | inl response =>
          match resp_data response with
          | [] => Completed (mkLoop (allPRs st) (currentPage st) false
                               (issued st ++ [rq]))
          | d :: ds =>
              pageLoop api q maxPages
                (mkLoop (allPRs st ++ map mapToPullRequest (d :: ds))
                   (currentPage st + 1) (linkHasNext (resp_link response))
                   (issued st ++ [rq]))
          end
      end
    else Completed st.
Proof.
  funelim (pageLoop api q maxPages st);
    repeat match goal with
      | H : _ && _ = _ |- _ => rewrite H
      | H : api _ = _ |- _ => rewrite H
      | H : resp_data _ = _ |- _ => rewrite H
      end; reflexivity.
Qed.

Lemma initialLoop_inv : LoopInv api initialLoop.
Proof. split; simpl; [lia | constructor | done]. Qed.

Lemma pageLoop_exit (st : LoopState) :
  LoopInv api st -> LoopExit api q maxPages (pageLoop api q maxPages st).
Proof.
  remember (Z.to_nat (maxPages + 1 - currentPage st)) as n eqn:Hn.
  revert st Hn. induction n as [n IH] using lt_wf_ind. intros st Hn Hinv.
  rewrite pageLoop_unfold.
  destruct (loopHasNext st && (currentPage st <=? maxPages)%Z) eqn:Hcond.
  2: { by apply ExitTest. }
  apply andb_prop in Hcond as [Hnext Hle%Z.leb_le]. cbv zeta.
  destruct (api (pageRequest q (currentPage st))) as [resp|e] eqn:Hapi.
  2: { by apply ExitThrow. }
  destruct (resp_data resp) as [|d ds] eqn:Hdata.
  { by eapply ExitEmpty. }
  eapply IH; [| reflexivity |]; simpl; [lia |].
  destruct Hinv as [Hp Hf Hl]. split; simpl.
  - rewrite length_app. simpl. lia.
  - apply Forall_app. split; [done|]. constructor; [|constructor].
    exists resp. split; [done|]. by rewrite Hdata.
  - rewrite last_snoc. exists resp. simpl. split; [lia | done].
Qed.

End PageLoop.

(** ** The fetch *)

Section Fetch.
Import Types GitHubService.
Variables (api : Upstream) (tLookup tStore : Z) (options : FetchPRsOptions).
Variable cache : gmap string (CacheService.CacheEntry FetchResult).

Let maxPages : Z := default 5 (opt_maxPages options).
Let q : ListParams :=
  mkListParams (owner options) (repo options)
    (default QOpen (opt_state options)) (default QCreated (opt_sort options))
    (default Desc (opt_direction options)) (default 30 (opt_perPage options)) 1.

(** A fetch is a cache hit, which sends nothing, or a run of the page loop
    from its initial state. *)
Lemma fetch_cases :
  (exists cached,
      (CacheService.get tLookup (cacheKey options) cache).1 = Some cached
      /\ fetchPullRequests api tLookup tStore options cache
         = (inr cached,
            (CacheService.get tLookup (cacheKey options) cache).2, []))
  \/ ((CacheService.get tLookup (cacheKey options) cache).1 = None
      /\ LoopExit api q maxPages (pageLoop api q maxPages initialLoop)
      /\ fetchPullRequests api tLookup tStore options cache
         = match pageLoop api q maxPages initialLoop with
           | Completed st =>
               let result :=
                 mkFetchResult (allPRs st)
                   (mkPagination (currentPage st - 1)
                      (default 30 (opt_perPage options)) (loopHasNext st)
                      (Z.of_nat (length (allPRs st)))) in
               (inr result,
                CacheService.set tStore (cacheKey options) result None
                  (CacheService.get tLookup (cacheKey options) cache).2,
                issued st)
           | Threw e st =>
               (inl (fetchErrorMessage (owner options) (repo options) e),
                (CacheService.get tLookup (cacheKey options) cache).2,
                issued st)
           end).
Proof.
  unfold fetchPullRequests.
  destruct (CacheService.get tLookup (cacheKey options) cache)
    as [[cached|] c1] eqn:Hget; simpl.
  - left. by exists cached.
  - right. split; [done|]. split; [|done].
    apply pageLoop_exit, initialLoop_inv.
Qed.

End Fetch.

Lemma fullPage_not_thrown api rq e :
  fullPage api rq -> api rq = inr e -> False.
Proof. intros (resp & Hresp & _) He. congruence. Qed.

Lemma fetchErrorMessage_cases :
  (forall o r m, GitHubService.fetchErrorMessage o r (GitHubService.RequestError 404 m)
     = "Repository " ++ o ++ "/" ++ r ++ " not found or you don't have access")
  /\ (forall o r m, GitHubService.fetchErrorMessage o r (GitHubService.RequestError 401 m)
        = "Authentication failed. Please check your GitHub token")
  /\ (forall o r m, Js.includes "rate limit" m = true ->
        GitHubService.fetchErrorMessage o r (GitHubService.RequestError 403 m)
        = "GitHub API rate limit exceeded. Please try again later")
  /\ (forall o r m, Js.includes "rate limit" m = false ->
        GitHubService.fetchErrorMessage o r (GitHubService.RequestError 403 m)
        = "Access forbidden. Please check your token permissions")
  /\ (forall o r e, otherFailure e ->
        GitHubService.fetchErrorMessage o r e
        = "Failed to fetch pull requests: " ++ GitHubService.getErrorMessage e).
Proof.
  repeat split; try done.
  - intros o r m H. simpl. by rewrite H.
  - intros o r m H. simpl. by rewrite H.
  - intros o r [status m| |] H; try done. simpl in H. destruct H as (H1 & H2 & H3).
    unfold GitHubService.fetchErrorMessage.
    destruct (Z.eqb_spec status 404); [done|].
    destruct (Z.eqb_spec status 401); [done|].
    destruct (Z.eqb_spec status 403); done.
Qed.

(** C1 (as amended).  When a request issued by the fetch fails, it is the
    last one; the fetch throws the message that classifies the failure and
    resolves to no list; nothing is written to the cache, which is left as
    the initial lookup left it: no entry under the key of the fetch, every
    other key untouched, the whole store unchanged unless that lookup
    evicted an expired entry under the key.  The classification: 404, 401,
    403 with "rate limit" in the message, any other 403, anything else. *)
Theorem fetch_failure_aborts :
  forall (api : GitHubService.Upstream) (tLookup tStore : Z)
         (options : Types.FetchPRsOptions)
         (cache : gmap string (CacheService.CacheEntry GitHubService.FetchResult))
         out cache' log rq e,
    GitHubService.fetchPullRequests api tLookup tStore options cache
      = (out, cache', log) ->
    In rq log -> api rq = inr e ->
    (out = inl (GitHubService.fetchErrorMessage
                  (Types.owner options) (Types.repo options) e)
     /\ last log = Some rq
     /\ cache' = (CacheService.get tLookup (GitHubService.cacheKey options) cache).2
     /\ cache' !! GitHubService.cacheKey options = None
     /\ (forall k, k <> GitHubService.cacheKey options -> cache' !! k = cache !! k)
     /\ (cache' = cache
         \/ exists entry,
             cache !! GitHubService.cacheKey options = Some entry
             /\ CacheService.ttl entry < tLookup - CacheService.timestamp entry
             /\ cache' = base.delete (GitHubService.cacheKey options) cache))
    /\ (forall o r m,
          GitHubService.fetchErrorMessage o r (GitHubService.RequestError 404 m)
          = "Repository " ++ o ++ "/" ++ r ++ " not found or you don't have access")
    /\ (forall o r m,
          GitHubService.fetchErrorMessage o r (GitHubService.RequestError 401 m)
          = "Authentication failed. Please check your GitHub token")
    /\ (forall o r m, Js.includes "rate limit" m = true ->
          GitHubService.fetchErrorMessage o r (GitHubService.RequestError 403 m)
          = "GitHub API rate limit exceeded. Please try again later")
    /\ (forall o r m, Js.includes "rate limit" m = false ->
          GitHubService.fetchErrorMessage o r (GitHubService.RequestError 403 m)
          = "Access forbidden. Please check your token permissions")
    /\ (forall o r e', otherFailure e' ->
          GitHubService.fetchErrorMessage o r e'
          = "Failed to fetch pull requests: " ++ GitHubService.getErrorMessage e').
Proof.
  intros api tLookup tStore options cache out cache' log rq e Hfetch Hin He.
  split; [|exact fetchErrorMessage_cases].
  destruct (fetch_cases api tLookup tStore options cache)
    as [(cached & _ & Hhit) | (Hmiss & Hexit & Hrun)].
  { rewrite Hhit in Hfetch. inversion Hfetch; subst. destruct Hin. }
  rewrite Hrun in Hfetch. clear Hrun.
  assert (Hthrow : exists st,
    LoopInv api st
    /\ api (GitHubService.pageRequest
              (GitHubService.mkListParams (Types.owner options) (Types.repo options)
                 (default Types.QOpen (Types.opt_state options))
                 (default Types.QCreated (Types.opt_sort options))
                 (default Types.Desc (Types.opt_direction options))
                 (default 30 (Types.opt_perPage options)) 1)
              (GitHubService.currentPage st)) = inr e
    /\ rq = GitHubService.pageRequest
              (GitHubService.mkListParams (Types.owner options) (Types.repo options)
                 (default Types.QOpen (Types.opt_state options))
                 (default Types.QCreated (Types.opt_sort options))
                 (default Types.Desc (Types.opt_direction options))
                 (default 30 (Types.opt_perPage options)) 1)
              (GitHubService.currentPage st)
    /\ log = (GitHubService.issued st ++ [rq])%list
    /\ out = inl (GitHubService.fetchErrorMessage
                    (Types.owner options) (Types.repo options) e)
    /\ cache' = (CacheService.get tLookup (GitHubService.cacheKey options) cache).2).
  { destruct (GitHubService.pageLoop _ _ _ _) as [st' | e' st'];
      simpl in Hfetch; inversion Hfetch; subst; clear Hfetch;
      inversion Hexit as [st Hinv Hc | st resp Hinv Hle Hapi Hd
                          | st e0 Hinv Hle Hapi]; subst; simpl in *.
    - destruct Hinv as [_ Hfull _]. rewrite List.Forall_forall in Hfull.
      destruct (fullPage_not_thrown _ _ _ (Hfull _ Hin) He).
    - apply in_app_or in Hin as [Hin | [<- | []]]; [|congruence].
      destruct Hinv as [_ Hfull _]. rewrite List.Forall_forall in Hfull.
      destruct (fullPage_not_thrown _ _ _ (Hfull _ Hin) He).
    - apply in_app_or in Hin as [Hin | [<- | []]].
      + destruct Hinv as [_ Hfull _]. rewrite List.Forall_forall in Hfull.
        destruct (fullPage_not_thrown _ _ _ (Hfull _ Hin) He).
      + exists st. rewrite Hapi in He. by inversion He; subst. }
  destruct Hthrow as (st & _ & _ & _ & -> & -> & ->).
  split; [done|]. split; [apply last_snoc|]. split; [done|].
  split; [by apply get_miss_no_entry|].
  split; [intros k Hk; by apply get_other_keys|].
  unfold CacheService.get in *.
  destruct (cache !! GitHubService.cacheKey options) as [entry|] eqn:Hentry;
    [|by left].
  destruct (Z.gtb_spec (tLookup - CacheService.timestamp entry)
              (CacheService.ttl entry)); [|by left].
  right. exists entry. split; [done|]. split; [lia | done].
Qed.

(** C1, witness: the upstream answers 404 to the first request. *)
Lemma fetch_failure_aborts_witness :
  let run := GitHubService.fetchPullRequests Sample.upstream404 10 20
               Sample.fetchDefaults ∅ in
  In (Sample.defaultRequest 1) run.2
  /\ Sample.upstream404 (Sample.defaultRequest 1)
     = inr (GitHubService.RequestError 404 "Not Found")
  /\ run.1.1 = inl "Repository o/r not found or you don't have access"
  /\ run.1.2 = ∅.
Proof.
  intros run.
  assert (Hin : In (Sample.defaultRequest 1) run.2) by (left; reflexivity).
  assert (Hrun : run = (run.1.1, run.1.2, run.2)) by (vm_compute; reflexivity).
  assert (Hfail : Sample.upstream404 (Sample.defaultRequest 1)
                  = inr (GitHubService.RequestError 404 "Not Found"))
    by reflexivity.
  split; [exact Hin|]. split; [exact Hfail|].
  destruct (fetch_failure_aborts Sample.upstream404 10 20 Sample.fetchDefaults ∅
              run.1.1 run.1.2 run.2 (Sample.defaultRequest 1)
              (GitHubService.RequestError 404 "Not Found")
              Hrun Hin Hfail) as [(Hout & _ & Hcache & _) _].
  split; [exact Hout | exact Hcache].
Defined.

(** C1, counterexample to "cache state unchanged on error": the cache holds
    an expired entry under the key of the fetch; the first request fails;
    the fetch throws and the cache has lost the entry. *)
Lemma fetch_failure_cache_changed_counterexample :
  let run := GitHubService.fetchPullRequests Sample.upstream404 300001 300002
               Sample.fetchDefaults Sample.staleCache in
  run.1.1 = inl "Repository o/r not found or you don't have access"
  /\ run.2 = [Sample.defaultRequest 1]
  /\ Sample.upstream404 (Sample.defaultRequest 1)
     = inr (GitHubService.RequestError 404 "Not Found")
  /\ run.1.2 = ∅
  /\ run.1.2 <> Sample.staleCache.
Proof.
  intros run.
  assert (Hcache : run.1.2 = ∅) by (vm_compute; reflexivity).
  repeat split; try reflexivity; try exact Hcache.
  rewrite Hcache. intros H.
  apply (f_equal (fun c => c !! GitHubService.cacheKey Sample.fetchDefaults)) in H.
  unfold Sample.staleCache in H. rewrite lookup_empty, lookup_singleton_eq in H.
  discriminate.
Qed.

(** With a page cap below 1 the loop body never runs. *)
Lemma pageLoop_no_pages api q maxPages :
  maxPages < 1 ->
  GitHubService.pageLoop api q maxPages GitHubService.initialLoop
  = GitHubService.Completed GitHubService.initialLoop.
Proof.
  intros Hmax. rewrite pageLoop_unfold. simpl.
  destruct (Z.leb_spec 1 maxPages); [lia | done].
Qed.

(** C2 (as amended).  For a fetch that is not a cache hit: when [maxPages]
    is at least 1, [hasNextPage] is reported exactly when the page counter,
    which is [page + 1], has passed [maxPages] while the answer to the last
    request named a next page; whenever a request was answered with no
    items, [hasNextPage] is false, whatever [maxPages]; when [maxPages] is
    below 1, no request is issued and [hasNextPage] is true. *)
Theorem fetch_hasNextPage_iff :
  forall (api : GitHubService.Upstream) (tLookup tStore : Z)
         (options : Types.FetchPRsOptions)
         (cache : gmap string (CacheService.CacheEntry GitHubService.FetchResult))
         r cache' log,
    (CacheService.get tLookup (GitHubService.cacheKey options) cache).1 = None ->
    GitHubService.fetchPullRequests api tLookup tStore options cache
      = (inr r, cache', log) ->
    (1 <= default 5 (Types.opt_maxPages options) ->
     (Types.hasNextPage (GitHubService.pagination r) = true
      <-> default 5 (Types.opt_maxPages options)
            < Types.page (GitHubService.pagination r) + 1
          /\ lastIndicatedNext api log))
    /\ (forall rq resp,
          In rq log -> api rq = inl resp -> GitHubService.resp_data resp = [] ->
          Types.hasNextPage (GitHubService.pagination r) = false)
    /\ (default 5 (Types.opt_maxPages options) < 1 ->
        log = [] /\ Types.hasNextPage (GitHubService.pagination r) = true).
Proof.
  intros api tLookup tStore options cache r cache' log Hmiss Hfetch.
  destruct (fetch_cases api tLookup tStore options cache)
    as [(cached & Hhit & _) | (_ & Hexit & Hrun)]; [congruence|].
  rewrite Hrun in Hfetch. clear Hrun.
  split_and!.
  - intros Hmax.
    destruct (GitHubService.pageLoop _ _ _ _) as [st' | e' st'];
      simpl in Hfetch; inversion Hfetch; subst; clear Hfetch; simpl.
    inversion Hexit as [st Hinv Hc | st resp0 Hinv Hle Hapi Hd | ]; subst; simpl.
    + destruct Hinv as [Hpage Hfull Hlast]. split.
      * intros Hnext. rewrite Hnext in Hc, Hlast. simpl in Hc.
        apply Z.leb_gt in Hc. split; [lia|].
        destruct (last (GitHubService.issued st')) as [rq|] eqn:Hl.
        -- destruct Hlast as (resp & _ & Hresp & Hn).
           exists rq, resp. by rewrite Hl.
        -- apply last_None in Hl. rewrite Hl in Hpage. simpl in Hpage. lia.
      * intros (_ & rq & resp & Hl & Hresp & Hn).
        rewrite Hl in Hlast. destruct Hlast as (resp' & _ & Hresp' & ->).
        congruence.
    + split; [done|]. intros [Hcap _]. lia.
  - destruct (GitHubService.pageLoop _ _ _ _) as [st' | e' st'];
      simpl in Hfetch; inversion Hfetch; subst; clear Hfetch; simpl.
    inversion Hexit as [st Hinv Hc | st resp0 Hinv Hle Hapi Hd | ]; subst;
      simpl; [|done].
    intros rq resp Hin Hresp Hd. destruct Hinv as [_ Hfull _].
    rewrite List.Forall_forall in Hfull.
    destruct (Hfull rq Hin) as (resp' & Hresp' & Hne). congruence.
  - intros Hmax. rewrite pageLoop_no_pages in Hfetch by exact Hmax.
    simpl in Hfetch. by inversion Hfetch.
Qed.

(** C2, witness: five full pages, each naming a next page, under the default
    cap of five. *)
Lemma fetch_hasNextPage_iff_witness :
  let run := GitHubService.fetchPullRequests Sample.upstreamEndless 10 20
               Sample.fetchDefaults ∅ in
  (CacheService.get 10 (GitHubService.cacheKey Sample.fetchDefaults)
     (∅ : gmap string (CacheService.CacheEntry GitHubService.FetchResult))).1
    = None
  /\ Types.hasNextPage (GitHubService.pagination (Sample.resolved run.1.1)) = true
  /\ lastIndicatedNext Sample.upstreamEndless run.2.
Proof.
  intros run.
  assert (Hmiss : (CacheService.get 10 (GitHubService.cacheKey Sample.fetchDefaults)
     (∅ : gmap string (CacheService.CacheEntry GitHubService.FetchResult))).1
    = None) by reflexivity.
  assert (Hrun : run = (inr (Sample.resolved run.1.1), run.1.2, run.2))
    by (vm_compute; reflexivity).
  destruct (fetch_hasNextPage_iff Sample.upstreamEndless 10 20
              Sample.fetchDefaults ∅ (Sample.resolved run.1.1) run.1.2 run.2
              Hmiss Hrun) as (Hiff & _ & _).
  assert (Hmax : 1 <= default 5 (Types.opt_maxPages Sample.fetchDefaults))
    by (vm_compute; discriminate).
  split; [exact Hmiss|]. split; [reflexivity|].
  apply (Hiff Hmax). reflexivity.
Defined.

(** C2, counterexample: with a page cap of 0 no request is issued, no
    response exists, and [hasNextPage] is reported true. *)
Lemma fetch_hasNextPage_no_request_counterexample :
  let run := GitHubService.fetchPullRequests Sample.upstreamEndless 10 20
               Sample.fetchNoPages ∅ in
  run.1.1 = inr (GitHubService.mkFetchResult []
                   (Types.mkPagination 0 30 true 0))
  /\ run.2 = []
  /\ ~ lastIndicatedNext Sample.upstreamEndless run.2.
Proof.
  intros run. split; [reflexivity | split; [reflexivity|]].
  intros (rq & resp & Hl & _). discriminate Hl.
Qed.

(** What [page] is after a fetch that was not a cache hit: the page of the
    last request when that page had items, the page before it when it came
    back empty; [totalFetched] is the number of items. *)
Lemma fetch_page_summary :
  forall (api : GitHubService.Upstream) (tLookup tStore : Z)
         (options : Types.FetchPRsOptions)
         (cache : gmap string (CacheService.CacheEntry GitHubService.FetchResult))
         r cache' log,
    (CacheService.get tLookup (GitHubService.cacheKey options) cache).1 = None ->
    GitHubService.fetchPullRequests api tLookup tStore options cache
      = (inr r, cache', log) ->
    Types.totalFetched (GitHubService.pagination r)
      = Z.of_nat (length (GitHubService.prs r))
    /\ forall rq resp,
        last log = Some rq -> api rq = inl resp ->
        (GitHubService.resp_data resp <> [] ->
         Types.page (GitHubService.pagination r) = GitHubService.p_page rq)
        /\ (GitHubService.resp_data resp = [] ->
            Types.page (GitHubService.pagination r) = GitHubService.p_page rq - 1).
Proof.
  intros api tLookup tStore options cache r cache' log Hmiss Hfetch.
  destruct (fetch_cases api tLookup tStore options cache)
    as [(cached & Hhit & _) | (_ & Hexit & Hrun)]; [congruence|].
  rewrite Hrun in Hfetch. clear Hrun.
  destruct (GitHubService.pageLoop _ _ _ _) as [st' | e' st'];
    simpl in Hfetch; inversion Hfetch; subst; clear Hfetch; simpl.
  split; [done|]. intros rq resp Hl Hresp.
  inversion Hexit as [st Hinv Hc | st resp0 Hinv Hle Hapi Hd | ]; subst;
    simpl in *.
  - destruct Hinv as [Hpage Hfull Hlast]. rewrite Hl in Hlast.
    destruct Hlast as (resp' & Hp & Hresp' & _). split; [lia|].
    intros Hd. apply last_Some_elem_of in Hl.
    rewrite Forall_forall in Hfull.
    destruct (Hfull rq Hl) as (resp'' & ? & ?). congruence.
  - rewrite last_snoc in Hl. inversion Hl; subst. simpl.
    split; [|lia]. congruence.
Qed.

(** C3.  The summary after an empty first page: one request was issued, for
    page 1, and [page] is 0, with [totalFetched] 0.  Where the only page has
    an item and names no next page, [page] is 1, the page requested. *)
Theorem fetch_page_after_empty_first_page :
  let run := GitHubService.fetchPullRequests Sample.upstreamEmpty 10 20
               Sample.fetchDefaults ∅ in
  let run' := GitHubService.fetchPullRequests Sample.upstreamOnePage 10 20
                Sample.fetchDefaults ∅ in
  (run.1.1 = inr (GitHubService.mkFetchResult []
                    (Types.mkPagination 0 30 false 0))
   /\ run.2 = [Sample.defaultRequest 1])
  /\ (Types.page (GitHubService.pagination (Sample.resolved run'.1.1)) = 1
      /\ run'.2 = [Sample.defaultRequest 1]).
Proof. repeat split; reflexivity. Qed.

(** X15.  A fetch that resolved without a cache hit is served from the cache
    afterwards: any fetch with the same key, read within the TTL, resolves
    to the same value and sends nothing, whatever its [perPage] and
    [maxPages]. *)
Lemma fetch_again_hits_cache :
  forall (api api' : GitHubService.Upstream)
         (tLookup tStore tLookup' tStore' : Z)
         (o1 o2 : Types.FetchPRsOptions)
         (cache : gmap string (CacheService.CacheEntry GitHubService.FetchResult))
         r cache1 log,
    (CacheService.get tLookup (GitHubService.cacheKey o1) cache).1 = None ->
    GitHubService.fetchPullRequests api tLookup tStore o1 cache
      = (inr r, cache1, log) ->
    GitHubService.cacheKey o2 = GitHubService.cacheKey o1 ->
    tLookup' - tStore <= CacheService.defaultTTL ->
    GitHubService.fetchPullRequests api' tLookup' tStore' o2 cache1
      = (inr r, cache1, []).
Proof.
  intros api api' tLookup tStore tLookup' tStore' o1 o2 cache r cache1 log
    Hmiss Hfetch Hkey Httl.
  destruct (fetch_cases api tLookup tStore o1 cache)
    as [(cached & Hhit & _) | (_ & _ & Hrun)]; [congruence|].
  rewrite Hrun in Hfetch. clear Hrun.
  destruct (GitHubService.pageLoop _ _ _ _) as [st | e st];
    simpl in Hfetch; inversion Hfetch; subst; clear Hfetch.
  unfold GitHubService.fetchPullRequests. rewrite Hkey.
  erewrite get_live; [| apply lookup_insert_eq | exact Httl]. reflexivity.
Qed.

(** ** Arrays *)

Section ArrayFacts.
Import JsArray.
Context {A : Type}.
Implicit Types (h : gmap nat (list A)) (r : nat) (xs : list A).

Lemma alloc_fresh xs h : h !! (alloc xs h).1 = None.
Proof. simpl. apply not_elem_of_dom, is_fresh. Qed.

Lemma alloc_lookup xs h : (alloc xs h).2 !! (alloc xs h).1 = Some xs.
Proof. simpl. apply lookup_insert_eq. Qed.

Lemma alloc_extends xs h : h ⊆ (alloc xs h).2.
Proof. simpl. apply insert_subseteq, not_elem_of_dom, is_fresh. Qed.

Lemma elements_lookup h r xs : h !! r = Some xs -> elements h r = xs.
Proof. unfold elements. by intros ->. Qed.

Lemma filter_filter (p : A -> bool) xs : List.filter p (List.filter p xs) = List.filter p xs.
Proof.
  induction xs as [|x xs IH]; [done|]. simpl.
  destruct (p x) eqn:Hp; simpl; [rewrite Hp; by f_equal | done].
Qed.

Lemma filter_andb (p p' : A -> bool) xs :
  List.filter p' (List.filter p xs) = List.filter (fun x => p x && p' x) xs.
Proof.
  induction xs as [|x xs IH]; [done|]. simpl.
  destruct (p x); simpl; [destruct (p' x); by rewrite IH | done].
Qed.

Lemma filter_true xs : List.filter (fun _ => true) xs = xs.
Proof. induction xs as [|x xs IH]; [done|]. simpl. by f_equal. Qed.

End ArrayFacts.

(** ** The filter *)

Section Filter.
Import Types JsArray Formatter.
Implicit Types (h : gmap nat (list PullRequest)) (options : FilterOptions).

Lemma filterPullRequests_stages h prs options :
  filterPullRequests h prs options
  = stage (commentsCriterion options)
      (stage (labelCriterion options)
         (stage (authorCriterion options) (spread prs h))).
Proof.
  unfold filterPullRequests, authorCriterion, labelCriterion, commentsCriterion.
  destruct (spread prs h) as [r0 h0].
  destruct options as [[a|] [l|] [n|]]; cbn [author label minComments];
    try destruct (Js.truthy a); try destruct (Js.truthy l); reflexivity.
Qed.

Lemma alloc_freshArray h0 h xs : h0 ⊆ h -> freshArray h0 xs (alloc xs h).
Proof.
  intros Hsub. split; [apply alloc_lookup|]. split.
  - etrans; [exact Hsub | apply alloc_extends].
  - eapply lookup_weaken_None; [apply alloc_fresh | exact Hsub].
Qed.

Lemma stage_freshArray criterion h0 xs rh :
  freshArray h0 xs rh ->
  freshArray h0 (List.filter (holds criterion) xs) (stage criterion rh).
Proof.
  intros (Hxs & Hsub & Hnew). destruct criterion as [p|]; simpl stage.
  - unfold arrayFilter. rewrite (elements_lookup _ _ _ Hxs).
    by apply alloc_freshArray.
  - unfold holds. rewrite filter_true. by split.
Qed.

(** The result of the filter: a reference that was not in use, to an array
    of the items that meet every present criterion, in a heap that still
    holds every array it held. *)
Lemma filterPullRequests_spec h prs options items :
  h !! prs = Some items ->
  freshArray h (List.filter (matchesCriteria options) items)
    (filterPullRequests h prs options).
Proof.
  intros Hitems. rewrite filterPullRequests_stages.
  assert (H0 : freshArray h items (spread prs h)).
  { unfold spread. rewrite (elements_lookup _ _ _ Hitems).
    by apply alloc_freshArray. }
  apply (stage_freshArray (authorCriterion options)) in H0.
  apply (stage_freshArray (labelCriterion options)) in H0.
  apply (stage_freshArray (commentsCriterion options)) in H0.
  rewrite !filter_andb in H0. exact H0.
Qed.

End Filter.

(** C8.  The filter builds a new array holding the items that meet every
    present criterion.  Filtering its result again with the same criteria
    gives an array with the same content; with no criterion present the
    content is that of the input.  The input array, and the array of the
    first result when it is filtered again, hold afterwards what they held
    before. *)
Theorem filter_idempotent_and_pure :
  forall (h : gmap nat (list Types.PullRequest)) (prs : nat)
         (items : list Types.PullRequest) (options : Types.FilterOptions),
    h !! prs = Some items ->
    let once := Formatter.filterPullRequests h prs options in
    let twice := Formatter.filterPullRequests once.2 once.1 options in
    let none := Formatter.filterPullRequests h prs
                  (Types.mkFilterOptions None None None) in
    JsArray.elements once.2 once.1 = List.filter (matchesCriteria options) items
    /\ JsArray.elements twice.2 twice.1 = JsArray.elements once.2 once.1
    /\ JsArray.elements none.2 none.1 = items
    /\ (once.1 <> prs /\ twice.1 <> once.1 /\ none.1 <> prs)
    /\ (once.2 !! prs = Some items /\ twice.2 !! prs = Some items
        /\ none.2 !! prs = Some items)
    /\ twice.2 !! once.1 = once.2 !! once.1.
Proof.
  intros h prs items options Hitems once twice none.
  destruct (filterPullRequests_spec h prs options items Hitems)
    as (H1 & E1 & N1). fold once in H1, E1, N1.
  destruct (filterPullRequests_spec once.2 once.1 options _ H1)
    as (H2 & E2 & N2). fold twice in H2, E2, N2.
  destruct (filterPullRequests_spec h prs (Types.mkFilterOptions None None None)
              items Hitems) as (H0 & E0 & N0). fold none in H0, E0, N0.
  assert (P1 : once.2 !! prs = Some items) by (eapply lookup_weaken; eassumption).
  split; [by apply elements_lookup|].
  split.
  { rewrite (elements_lookup _ _ _ H1), (elements_lookup _ _ _ H2).
    apply filter_filter. }
  split.
  { rewrite (elements_lookup _ _ _ H0). apply filter_true. }
  split.
  { repeat split; intros Heq; [rewrite Heq in N1 | rewrite Heq in N2
                               | rewrite Heq in N0]; congruence. }
  split.
  { split; [done|]. split; [|eapply lookup_weaken; [exact Hitems | exact E0]].
    eapply lookup_weaken; [exact P1 | exact E2]. }
  rewrite H1. eapply lookup_weaken; [exact H1 | exact E2].
Qed.

(** C8, witness: four pull requests filtered by author ALICE and at least
    five comments. *)
Lemma filter_idempotent_and_pure_witness :
  let options := Types.mkFilterOptions (Some "ALICE") None (Some 5) in
  let once := Formatter.filterPullRequests Sample.heap4 0%nat options in
  let twice := Formatter.filterPullRequests once.2 once.1 options in
  Sample.heap4 !! 0%nat
    = Some [Sample.zebra; Sample.alpha; Sample.beta; Sample.gamma]
  /\ JsArray.elements once.2 once.1 = [Sample.zebra; Sample.alpha]
  /\ JsArray.elements twice.2 twice.1 = JsArray.elements once.2 once.1.
Proof.
  intros options once twice.
  assert (H : Sample.heap4 !! 0%nat
              = Some [Sample.zebra; Sample.alpha; Sample.beta; Sample.gamma])
    by reflexivity.
  destruct (filter_idempotent_and_pure Sample.heap4 0%nat _ options H)
    as (Hc & Hidem & _).
  split; [exact H|]. split; [|exact Hidem].
  etransitivity; [exact Hc|]. reflexivity.
Defined.

(** ** The sort *)

Lemma forallb_pointwise {A : Type} (p p' : A -> bool) (l : list A) :
  (forall y, p y = p' y) -> forallb p l = forallb p' l.
Proof. intros H. induction l as [|x l IH]; simpl; [done | by rewrite H, IH]. Qed.

Section StableSort.
Import JsArray.
Context {A : Type}.
Variable cmp : A -> A -> JsNumber.

(** [a] is ordered before [b]. *)
Let before (a b : A) : Prop := isNegative (cmp a b) = true.

Lemma insertSorted_perm x l : insertSorted cmp x l ≡ₚ x :: l.
Proof.
  induction l as [|y l IH]; [done|]. simpl.
  destruct (isPositive (cmp x y)); [|done].
  rewrite IH. apply Permutation_swap.
Qed.

Lemma stableSort_perm l : stableSort cmp l ≡ₚ l.
Proof.
  induction l as [|x l IH]; [done|].
  change (stableSort cmp (x :: l)) with (insertSorted cmp x (stableSort cmp l)).
  by rewrite insertSorted_perm, IH.
Qed.

Hypothesis cmp_swap : forall a b, isPositive (cmp a b) = isNegative (cmp b a).
Hypothesis cmp_trans : forall a b c, before a b -> before b c -> before a c.

Lemma insertSorted_sorted x l :
  StronglySorted before l ->
  Forall (fun y => isNegative (cmp x y) || isPositive (cmp x y) = true) l ->
  StronglySorted before (insertSorted cmp x l).
Proof.
  induction 1 as [|y l Hl IH Hy]; intros Hx; simpl.
  { repeat constructor. }
  apply Forall_cons in Hx as [Hxy Hx].
  destruct (isPositive (cmp x y)) eqn:Hpos.
  - constructor; [by apply IH|].
    rewrite insertSorted_perm. constructor; [|done].
    unfold before. by rewrite <- cmp_swap.
  - simpl in Hxy. rewrite orb_false_r in Hxy.
    constructor; [by constructor|].
    constructor; [done|].
    eapply Forall_impl; [exact Hy|]. intros z Hz. by eapply cmp_trans.
Qed.

Lemma noTies_cons x l :
  noTies cmp (x :: l) = true ->
  Forall (fun y => isNegative (cmp x y) || isPositive (cmp x y) = true) l
  /\ noTies cmp l = true.
Proof.
  simpl. intros [H1 H2]%andb_prop. split; [|done].
  apply Forall_forall. intros y Hy%list_elem_of_In.
  by apply (proj1 (forallb_forall _ _) H1).
Qed.

Lemma stableSort_sorted l :
  noTies cmp l = true -> StronglySorted before (stableSort cmp l).
Proof.
  induction l as [|x l IH]; intros Hl; [constructor|].
  apply noTies_cons in Hl as [Hx Hl].
  change (stableSort cmp (x :: l)) with (insertSorted cmp x (stableSort cmp l)).
  apply insertSorted_sorted; [by apply IH|].
  by rewrite stableSort_perm.
Qed.

Lemma before_irrefl a : ~ before a a.
Proof.
  unfold before. intros H. pose proof (cmp_swap a a) as Hs. rewrite H in Hs.
  destruct (cmp a a) as [v|]; [|done]. simpl in *.
  apply Z.ltb_lt in H, Hs. lia.
Qed.

End StableSort.

Section Reversal.
Import JsArray.
Context {A : Type}.
Variable cmp : A -> A -> JsNumber.
Hypothesis cmp_swap : forall a b, isPositive (cmp a b) = isNegative (cmp b a).
Hypothesis cmp_trans : forall a b c,
  isNegative (cmp a b) = true -> isNegative (cmp b c) = true ->
  isNegative (cmp a c) = true.

(** The comparator of the descending direction. *)
Let neg (a b : A) : JsNumber := numNeg (cmp a b).

Lemma isNegative_numNeg v : isNegative (numNeg v) = isPositive v.
Proof.
  destruct v as [x|]; [|done]. simpl.
  destruct (Z.ltb_spec (- x) 0), (Z.ltb_spec 0 x); (done || lia).
Qed.

Lemma isPositive_numNeg v : isPositive (numNeg v) = isNegative v.
Proof.
  destruct v as [x|]; [|done]. simpl.
  destruct (Z.ltb_spec 0 (- x)), (Z.ltb_spec x 0); (done || lia).
Qed.

Lemma neg_swap a b : isPositive (neg a b) = isNegative (neg b a).
Proof.
  unfold neg. by rewrite isPositive_numNeg, isNegative_numNeg, cmp_swap.
Qed.

Lemma neg_before a b :
  isNegative (neg a b) = true <-> isNegative (cmp b a) = true.
Proof. unfold neg. by rewrite isNegative_numNeg, cmp_swap. Qed.

Lemma neg_trans a b c :
  isNegative (neg a b) = true -> isNegative (neg b c) = true ->
  isNegative (neg a c) = true.
Proof. rewrite !neg_before. eauto. Qed.

Lemma noTies_neg l : noTies neg l = noTies cmp l.
Proof.
  induction l as [|x l IH]; [done|]. simpl. rewrite IH. f_equal.
  apply forallb_pointwise. intros y. unfold neg.
  rewrite isNegative_numNeg, isPositive_numNeg. apply orb_comm.
Qed.

Lemma sorted_rev l :
  StronglySorted (fun a b => isNegative (cmp a b) = true) l ->
  StronglySorted (fun a b => isNegative (neg a b) = true) (rev l).
Proof.
  induction 1 as [|x l Hl IH Hx]; simpl; [constructor|].
  apply StronglySorted_app. split_and!; [| exact IH | repeat constructor].
  intros y z Hy Hz. apply list_elem_of_singleton in Hz as ->.
  apply neg_before. rewrite Forall_forall in Hx. apply Hx.
  apply list_elem_of_In. apply list_elem_of_In in Hy. by apply in_rev.
Qed.

(** Where no two elements compare equal, sorting with the negated comparator
    gives the reverse of sorting with the comparator. *)
Lemma stableSort_neg_rev l :
  noTies cmp l = true -> stableSort neg l = rev (stableSort cmp l).
Proof.
  intros Hl.
  apply (StronglySorted_unique_strong
           (fun a b => isNegative (neg a b) = true)).
  - intros a b _ _ Hab Hba.
    destruct (before_irrefl neg neg_swap a). by eapply neg_trans.
  - apply stableSort_sorted; [exact neg_swap | exact neg_trans |].
    by rewrite noTies_neg.
  - apply sorted_rev. by apply stableSort_sorted.
  - rewrite stableSort_perm, <- Permutation_rev, stableSort_perm. done.
Qed.

End Reversal.

Section SortFacts.
Import Types JsArray Formatter.
Variable getTime : string -> JsNumber.
Variable localeCompare : string -> string -> Z.

Lemma numSub_swap v w : isPositive (numSub v w) = isNegative (numSub w v).
Proof.
  destruct v as [x|], w as [y|]; try done. simpl.
  destruct (Z.ltb_spec 0 (x - y)), (Z.ltb_spec (y - x) 0); (done || lia).
Qed.

Lemma numSub_trans u v w :
  isNegative (numSub u v) = true -> isNegative (numSub v w) = true ->
  isNegative (numSub u w) = true.
Proof.
  destruct u as [x|], v as [y|], w as [z|]; try done. simpl.
  rewrite !Z.ltb_lt. lia.
Qed.

Lemma compareValue_swap f :
  (f = FTitle -> consistentCollation localeCompare) ->
  forall a b,
    isPositive (compareValue getTime localeCompare f a b)
    = isNegative (compareValue getTime localeCompare f b a).
Proof.
  intros Hlc a b. destruct f; simpl.
  - apply numSub_swap.
  - apply numSub_swap.
  - destruct (Z.ltb_spec 0 (comments a + review_comments a
                              - (comments b + review_comments b))),
             (Z.ltb_spec (comments b + review_comments b
                            - (comments a + review_comments a)) 0);
      (done || lia).
  - destruct (Hlc eq_refl) as [Hswap _]. specialize (Hswap (title a) (title b)).
    destruct (Z.ltb_spec 0 (localeCompare (title a) (title b))),
             (Z.ltb_spec (localeCompare (title b) (title a)) 0);
      try done; exfalso; revert Hswap;
      destruct (localeCompare (title a) (title b)),
               (localeCompare (title b) (title a)); simpl; lia.
Qed.

Lemma compareValue_trans f :
  (f = FTitle -> consistentCollation localeCompare) ->
  forall a b c,
    isNegative (compareValue getTime localeCompare f a b) = true ->
    isNegative (compareValue getTime localeCompare f b c) = true ->
    isNegative (compareValue getTime localeCompare f a c) = true.
Proof.
  intros Hlc a b c. destruct f; simpl.
  - apply numSub_trans.
  - apply numSub_trans.
  - rewrite !Z.ltb_lt. lia.
  - destruct (Hlc eq_refl) as [_ Htrans]. rewrite !Z.ltb_lt. apply Htrans.
Qed.

(** The result of the sort: a reference that was not in use, to an array
    holding the items in the order of the stable sort by the callback, in a
    heap that still holds every array it held. *)
Lemma sortPullRequests_spec (h : gmap nat (list PullRequest)) prs options items :
  h !! prs = Some items ->
  freshArray h (stableSort (comparator getTime localeCompare options) items)
    (sortPullRequests getTime localeCompare h prs options).
Proof.
  intros Hitems. unfold sortPullRequests, spread, alloc, arraySort.
  rewrite (elements_lookup _ _ _ Hitems). simpl.
  unfold elements. rewrite lookup_insert_eq. simpl.
  assert (Hfresh : h !! fresh (dom h) = None)
    by apply not_elem_of_dom, is_fresh.
  split; [apply lookup_insert_eq|]. split; [|done].
  rewrite insert_insert_eq. by apply insert_subseteq.
Qed.

End SortFacts.

Lemma string_compare_lt_trans (a b c : string) :
  (a ?= b)%string = Lt -> (b ?= c)%string = Lt -> (a ?= c)%string = Lt.
Proof.
  revert b c. induction a as [|x a IH]; intros [|y b] [|z c]; simpl; try done.
  destruct (Ascii.compare x y) eqn:Hxy; try done;
    destruct (Ascii.compare y z) eqn:Hyz; try done.
  - apply Ascii.compare_eq_iff in Hxy as ->. rewrite Hyz. apply IH.
  - apply Ascii.compare_eq_iff in Hxy as ->. by rewrite Hyz.
  - apply Ascii.compare_eq_iff in Hyz as <-. by rewrite Hxy.
  - intros _ _. unfold Ascii.compare in *.
    rewrite N.compare_lt_iff in Hxy, Hyz.
    assert (H : (N_of_ascii x ?= N_of_ascii z)%N = Lt)
      by (apply N.compare_lt_iff; lia).
    by rewrite H.
Qed.

Lemma sampleHost_collation : consistentCollation SampleHost.localeCompare.
Proof.
  split.
  - intros a b. unfold SampleHost.localeCompare.
    rewrite (String.compare_antisym a b).
    by destruct (b ?= a)%string.
  - intros a b c. unfold SampleHost.localeCompare.
    destruct (a ?= b)%string eqn:Hab; try (simpl; lia).
    destruct (b ?= c)%string eqn:Hbc; try (simpl; lia).
    by rewrite (string_compare_lt_trans a b c Hab Hbc).
Qed.

(** C7 (as amended).  The sort builds a new array, a rearrangement of the
    input, and leaves the input array as it was.  The callback of the
    descending direction is the negation of the ascending one.  Where no two
    items compare equal under the field (and, for titles, the locale
    comparison is consistent), the descending result is the ascending
    result reversed. *)
Theorem sort_desc_reverses_asc_without_ties :
  forall (getTime : string -> JsArray.JsNumber)
         (localeCompare : string -> string -> Z)
         (h : gmap nat (list Types.PullRequest)) (prs : nat)
         (items : list Types.PullRequest) (f : Types.SortField),
    h !! prs = Some items ->
    let asc := Formatter.sortPullRequests getTime localeCompare h prs
                 (Types.mkSortOptions f Types.Asc) in
    let desc := Formatter.sortPullRequests getTime localeCompare h prs
                  (Types.mkSortOptions f Types.Desc) in
    (forall a b,
        Formatter.comparator getTime localeCompare
          (Types.mkSortOptions f Types.Desc) a b
        = JsArray.numNeg (Formatter.comparator getTime localeCompare
                            (Types.mkSortOptions f Types.Asc) a b))
    /\ (asc.1 <> prs /\ desc.1 <> prs
        /\ asc.2 !! prs = Some items /\ desc.2 !! prs = Some items)
    /\ (JsArray.elements asc.2 asc.1 ≡ₚ items
        /\ JsArray.elements desc.2 desc.1 ≡ₚ items)
    /\ ((f = Types.FTitle -> consistentCollation localeCompare) ->
        JsArray.noTies (Formatter.compareValue getTime localeCompare f) items
          = true ->
        JsArray.elements desc.2 desc.1 = rev (JsArray.elements asc.2 asc.1)).
Proof.
  intros getTime localeCompare h prs items f Hitems asc desc.
  destruct (sortPullRequests_spec getTime localeCompare h prs
              (Types.mkSortOptions f Types.Asc) items Hitems) as (Ha & Ea & Na).
  destruct (sortPullRequests_spec getTime localeCompare h prs
              (Types.mkSortOptions f Types.Desc) items Hitems) as (Hd & Ed & Nd).
  fold asc in Ha, Ea, Na. fold desc in Hd, Ed, Nd.
  split; [done|]. split.
  { split_and!.
    - intros Heq. rewrite Heq in Na. congruence.
    - intros Heq. rewrite Heq in Nd. congruence.
    - eapply lookup_weaken; [exact Hitems | exact Ea].
    - eapply lookup_weaken; [exact Hitems | exact Ed]. }
  rewrite (elements_lookup _ _ _ Ha), (elements_lookup _ _ _ Hd).
  split; [split; apply stableSort_perm|].
  intros Hlc Hties.
  apply (stableSort_neg_rev (Formatter.compareValue getTime localeCompare f)).
  - by apply compareValue_swap.
  - by apply compareValue_trans.
  - exact Hties.
Qed.

(** C7, witness: Zebra, Alpha, Beta sorted by title. *)
Lemma sort_desc_reverses_asc_witness :
  let asc := Formatter.sortPullRequests SampleHost.getTime SampleHost.localeCompare
               Sample.heap3 0%nat (Types.mkSortOptions Types.FTitle Types.Asc) in
  let desc := Formatter.sortPullRequests SampleHost.getTime SampleHost.localeCompare
                Sample.heap3 0%nat (Types.mkSortOptions Types.FTitle Types.Desc) in
  Sample.heap3 !! 0%nat = Some [Sample.zebra; Sample.alpha; Sample.beta]
  /\ JsArray.noTies
       (Formatter.compareValue SampleHost.getTime SampleHost.localeCompare
          Types.FTitle)
       [Sample.zebra; Sample.alpha; Sample.beta] = true
  /\ JsArray.elements asc.2 asc.1 = [Sample.alpha; Sample.beta; Sample.zebra]
  /\ JsArray.elements desc.2 desc.1 = rev (JsArray.elements asc.2 asc.1)
  /\ desc.2 !! 0%nat = Some [Sample.zebra; Sample.alpha; Sample.beta].
Proof.
  intros asc desc.
  assert (H : Sample.heap3 !! 0%nat
              = Some [Sample.zebra; Sample.alpha; Sample.beta]) by reflexivity.
  destruct (sort_desc_reverses_asc_without_ties SampleHost.getTime
              SampleHost.localeCompare Sample.heap3 0%nat _ Types.FTitle H)
    as (_ & (_ & _ & _ & Hin) & _ & Hrev).
  assert (Hties : JsArray.noTies
            (Formatter.compareValue SampleHost.getTime SampleHost.localeCompare
               Types.FTitle)
            [Sample.zebra; Sample.alpha; Sample.beta] = true) by reflexivity.
  split; [exact H|]. split; [exact Hties|].
  split; [reflexivity|]. split; [|exact Hin].
  apply Hrev; [intros _; exact sampleHost_collation | exact Hties].
Defined.

(** C7, counterexample: two pull requests with fifteen comments each keep
    their order in both directions, so the descending result is not the
    ascending result reversed. *)
Lemma sort_desc_ties_counterexample :
  let asc := Formatter.sortPullRequests SampleHost.getTime SampleHost.localeCompare
               Sample.heapTie 0%nat (Types.mkSortOptions Types.FComments Types.Asc) in
  let desc := Formatter.sortPullRequests SampleHost.getTime SampleHost.localeCompare
                Sample.heapTie 0%nat (Types.mkSortOptions Types.FComments Types.Desc) in
  JsArray.elements asc.2 asc.1 = [Sample.alpha; Sample.gamma]
  /\ JsArray.elements desc.2 desc.1 = [Sample.alpha; Sample.gamma]
  /\ JsArray.elements desc.2 desc.1 <> rev (JsArray.elements asc.2 asc.1).
Proof.
  intros asc desc.
  assert (Ha : JsArray.elements asc.2 asc.1 = [Sample.alpha; Sample.gamma])
    by reflexivity.
  assert (Hd : JsArray.elements desc.2 desc.1 = [Sample.alpha; Sample.gamma])
    by reflexivity.
  split; [exact Ha|]. split; [exact Hd|].
  rewrite Ha, Hd. simpl. intros H. inversion H.
Qed.

(** * Further properties *)

(** ** The cache *)

(** X1.  Writing a key twice leaves what the second write alone leaves: the
    later value is the one read back, the key is counted once, and no other
    key is touched. *)
Theorem cache_set_overwrites :
  forall (T : Type) (c : gmap string (CacheService.CacheEntry T))
         (k : string) (v1 v2 : T) (ttl1 ttl2 : option Z) (t1 t2 : Z),
    let c1 := CacheService.set t1 k v1 ttl1 c in
    let c2 := CacheService.set t2 k v2 ttl2 c1 in
    c2 = CacheService.set t2 k v2 ttl2 c
    /\ (forall now, now - t2 <= default CacheService.defaultTTL ttl2 ->
          CacheService.get now k c2 = (Some v2, c2))
    /\ (CacheService.getStats c2).1 = (CacheService.getStats c1).1
    /\ (forall k', k' <> k -> c2 !! k' = c !! k').
Proof.
  intros T c k v1 v2 ttl1 ttl2 t1 t2 c1 c2.
  assert (E : c2 = CacheService.set t2 k v2 ttl2 c)
    by apply insert_insert_eq.
  split_and!.
  - exact E.
  - intros now Hnow.
    by rewrite (get_live c2 k now (CacheService.mkEntry v2 t2 _)
                  (lookup_insert_eq _ _ _)).
  - unfold CacheService.getStats. simpl. unfold c2, c1, CacheService.set.
    rewrite !map_size_insert, lookup_insert_eq. simpl.
    by destruct (c !! k).
  - intros k' Hne. unfold c2, c1, CacheService.set.
    by rewrite !lookup_insert_ne.
Qed.


(** X3.  [delete] reports whether the key had an entry, expired or not;
    afterwards the key reads as absent, a second [delete] reports false,
    and no other key is touched. *)
Theorem cache_delete_removes :
  forall (T : Type) (c : gmap string (CacheService.CacheEntry T))
         (k : string) (now : Z),
    let c1 := (CacheService.delete k c).2 in
    ((CacheService.delete k c).1 = true <-> is_Some (c !! k))
    /\ CacheService.get now k c1 = (None, c1)
    /\ (CacheService.delete k c1).1 = false
    /\ (forall k', k' <> k -> c1 !! k' = c !! k').
Proof.
  intros T c k now c1. unfold CacheService.delete in *. simpl in *.
  split_and!.
  - apply bool_decide_eq_true.
  - apply get_absent. apply lookup_delete_eq.
  - apply bool_decide_eq_false. unfold c1. rewrite lookup_delete_eq.
    by intros [? ?].
  - intros k' Hne. by apply lookup_delete_ne.
Qed.

(** X4.  A value is read only from an entry that has not expired, and such a
    read leaves the store as it was; whatever the outcome, a read adds
    nothing to the store. *)
Theorem cache_get_sound :
  forall (T : Type) (c : gmap string (CacheService.CacheEntry T))
         (k : string) (now : Z),
    (forall v, (CacheService.get now k c).1 = Some v ->
       (exists e, c !! k = Some e /\ CacheService.data e = v
                  /\ now - CacheService.timestamp e <= CacheService.ttl e)
       /\ (CacheService.get now k c).2 = c)
    /\ (CacheService.get now k c).2 ⊆ c.
Proof.
  intros T c k now. unfold CacheService.get.
  destruct (c !! k) as [e|] eqn:He; simpl; [|done].
  destruct (Z.gtb_spec (now - CacheService.timestamp e) (CacheService.ttl e));
    simpl.
  - split; [done|]. apply delete_subseteq.
  - split; [|done]. intros v [= <-]. split; [|done].
    exists e. split; [done|]. split; [done | lia].
Qed.

(** X5.  [getStats] reports the entries physically held: an expired entry
    is still counted, with its key listed, until a read of that key evicts
    it, after which the size is one less and the key is gone; a read of a
    live entry changes nothing; after [clear] the size is 0 and no key is
    listed. *)
Theorem cache_stats_lazy_eviction :
  forall (T : Type) (c : gmap string (CacheService.CacheEntry T))
         (k : string) (e : CacheService.CacheEntry T) (now : Z),
    c !! k = Some e ->
    let after := CacheService.getStats (CacheService.get now k c).2 in
    k ∈ (CacheService.getStats c).2
    /\ (CacheService.ttl e < now - CacheService.timestamp e ->
        (CacheService.getStats c).1 = S after.1
        /\ after.2 = (CacheService.getStats c).2 ∖ {[k]})
    /\ (now - CacheService.timestamp e <= CacheService.ttl e ->
        after = CacheService.getStats c)
    /\ CacheService.getStats (CacheService.clear c) = (0%nat, ∅).
Proof.
  intros T c k e now He after. unfold after, CacheService.getStats. simpl.
  split_and!.
  - apply elem_of_dom. by exists e.
  - intros Hexp. rewrite (get_expired c k now e He Hexp). simpl.
    rewrite dom_delete_L. split; [|done].
    rewrite <- (insert_delete_id c k e He) at 1.
    apply map_size_insert_None, lookup_delete_eq.
  - intros Hlive. by rewrite (get_live c k now e He Hlive).
  - unfold CacheService.clear. by rewrite map_size_empty, dom_empty_L.
Qed.

(** X5, witness: one entry stored at time 0 with a TTL of 100 and read at
    time 150. *)
Lemma cache_stats_lazy_eviction_witness :
  let c : gmap string (CacheService.CacheEntry nat) :=
    CacheService.set 0 "k" 7%nat (Some 100) ∅ in
  c !! "k" = Some (CacheService.mkEntry 7%nat 0 100)
  /\ (CacheService.getStats c).1 = 1%nat
  /\ (CacheService.getStats (CacheService.get 150 "k" c).2).1 = 0%nat.
Proof.
  intros c.
  assert (H : c !! "k" = Some (CacheService.mkEntry 7%nat 0 100))
    by reflexivity.
  destruct (cache_stats_lazy_eviction nat c "k" _ 150 H) as (_ & Hexp & _).
  destruct Hexp as [Hsize _]; [simpl; lia|].
  split; [exact H|]. split; [reflexivity|].
  apply eq_add_S. rewrite <- Hsize. reflexivity.
Defined.

(** ** Strings *)

Section StringFacts.
Implicit Types (s t : string) (c : ascii).

Lemma allUnits_append p s t :
  Js.allUnits p (s ++ t) = Js.allUnits p s && Js.allUnits p t.
Proof.
  induction s as [|a s IH]; simpl; [done|]. rewrite IH. apply andb_assoc.
Qed.

Lemma freeOf_sep c s t : freeOf c (s ++ String c t) = false.
Proof.
  unfold freeOf. rewrite allUnits_append. simpl. rewrite Ascii.eqb_refl.
  simpl. apply andb_false_r.
Qed.

(** A string splits in one way at the first occurrence of a unit... *)
Lemma append_sep_inj_l c s1 s2 t1 t2 :
  freeOf c s1 = true -> freeOf c s2 = true ->
  s1 ++ String c t1 = s2 ++ String c t2 -> s1 = s2 /\ t1 = t2.
Proof.
  revert s2. induction s1 as [|a s1 IH]; intros [|b s2]; simpl;
    intros H1 H2 Heq.
  - by injection Heq as ->.
  - injection Heq as <- _. unfold freeOf in H2. simpl in H2.
    by rewrite Ascii.eqb_refl in H2.
  - injection Heq as -> _. unfold freeOf in H1. simpl in H1.
    by rewrite Ascii.eqb_refl in H1.
  - injection Heq as -> Heq.
    unfold freeOf in H1, H2. simpl in H1, H2.
    apply andb_prop in H1 as [_ H1]. apply andb_prop in H2 as [_ H2].
    destruct (IH s2 H1 H2 Heq) as [-> ->]. done.
Qed.

(** ... and in one way at the last. *)
Lemma append_sep_inj_r c s1 s2 t1 t2 :
  freeOf c t1 = true -> freeOf c t2 = true ->
  s1 ++ String c t1 = s2 ++ String c t2 -> s1 = s2 /\ t1 = t2.
Proof.
  intros H1 H2. revert s2.
  induction s1 as [|a s1 IH]; intros [|b s2]; simpl; intros Heq.
  - by injection Heq as ->.
  - injection Heq as _ Heq. rewrite Heq, freeOf_sep in H1. done.
  - injection Heq as _ Heq. rewrite <- Heq, freeOf_sep in H2. done.
  - injection Heq as -> Heq. destruct (IH s2 Heq) as [-> ->]. done.
Qed.

Lemma split_free c s : freeOf c s = true -> Js.split c s = [s].
Proof.
  induction s as [|a s IH]; simpl; [done|]. unfold freeOf. simpl.
  intros [Ha Hs]%andb_prop. apply negb_true_iff in Ha. rewrite Ha.
  by rewrite (IH Hs).
Qed.

Lemma split_append c s t :
  freeOf c s = true -> Js.split c (s ++ String c t) = s :: Js.split c t.
Proof.
  induction s as [|a s IH]; simpl.
  - intros _. by rewrite Ascii.eqb_refl.
  - unfold freeOf. simpl. intros [Ha Hs]%andb_prop.
    apply negb_true_iff in Ha. rewrite Ha. by rewrite (IH Hs).
Qed.

(** The first part of a split holds no separator; what follows it in the
    string is the separator and the string of the remaining parts. *)
Lemma split_first c s p ps :
  Js.split c s = p :: ps ->
  freeOf c p = true
  /\ match ps with
     | [] => s = p
     | _ :: _ => exists rest, s = p ++ String c rest /\ Js.split c rest = ps
     end.
Proof.
  revert p ps. induction s as [|a s IH]; intros p ps; simpl.
  - by intros [= <- <-].
  - destruct (Ascii.eqb a c) eqn:Hac.
    + apply Ascii.eqb_eq in Hac as ->. intros [= <- <-].
      split; [done|]. destruct (Js.split c s) eqn:Hs; [|by exists s].
      by destruct s; simpl in Hs; repeat case_match.
    + destruct (Js.split c s) as [|q qs] eqn:Hs.
      { by destruct s; simpl in Hs; repeat case_match. }
      intros [= <- <-]. destruct (IH q qs eq_refl) as [Hq Hrest].
      split.
      * unfold freeOf in *. simpl. by rewrite Hac, Hq.
      * destruct qs as [|r rs]; [by rewrite Hrest|].
        destruct Hrest as (rest & -> & Hsplit). by exists rest.
Qed.

Lemma trimStart_clean s : startsClean (Js.trimStart s).
Proof.
  induction s as [|a s IH]; simpl; [done|].
  destruct (Js.isWhiteSpace a) eqn:Ha; [done | by simpl].
Qed.

Lemma trimStart_id s : startsClean s -> Js.trimStart s = s.
Proof. destruct s as [|a s]; simpl; [done|]. by intros ->. Qed.

Lemma trimEnd_clean s : startsClean s -> startsClean (Js.trimEnd s).
Proof.
  destruct s as [|a s]; simpl; [done|]. intros Ha.
  destruct (Js.trimEnd s); [by rewrite Ha | done].
Qed.

Lemma trimEnd_idem s : Js.trimEnd (Js.trimEnd s) = Js.trimEnd s.
Proof.
  induction s as [|a s IH]; [done|]. simpl.
  destruct (Js.trimEnd s) as [|b t] eqn:Ht.
  - destruct (Js.isWhiteSpace a) eqn:Ha; [done|]. simpl. by rewrite Ha.
  - change (Js.trimEnd (String a (String b t)) = String a (String b t)).
    simpl in *. by rewrite IH.
Qed.

(** Trimming twice is trimming once. *)
Lemma trim_idem s : Js.trim (Js.trim s) = Js.trim s.
Proof.
  unfold Js.trim.
  rewrite (trimStart_id (Js.trimEnd (Js.trimStart s)))
    by apply trimEnd_clean, trimStart_clean.
  apply trimEnd_idem.
Qed.

Lemma trimStart_empty_iff s :
  Js.trimStart s = "" <-> Js.allUnits Js.isWhiteSpace s = true.
Proof.
  induction s as [|a s IH]; simpl; [done|].
  destruct (Js.isWhiteSpace a); simpl; [done | by split].
Qed.

Lemma trimEnd_empty_iff s :
  Js.trimEnd s = "" <-> Js.allUnits Js.isWhiteSpace s = true.
Proof.
  induction s as [|a s IH]; simpl; [done|].
  destruct (Js.trimEnd s) as [|b t].
  - destruct (Js.isWhiteSpace a); simpl.
    + by rewrite <- IH.
    + by split.
  - rewrite andb_true_iff, <- IH. split; [done | by intros [_ ?]].
Qed.

(** A string trims to nothing exactly when it is all white space. *)
Lemma trim_empty_iff s :
  Js.trim s = "" <-> Js.allUnits Js.isWhiteSpace s = true.
Proof.
  unfold Js.trim. rewrite trimEnd_empty_iff, <- (trimStart_empty_iff s).
  pose proof (trimStart_clean s) as Hc.
  destruct (Js.trimStart s) as [|a t]; simpl in *; [by split|].
  rewrite Hc. simpl. by split.
Qed.

Lemma allUnits_trimStart p s :
  Js.allUnits p s = true -> Js.allUnits p (Js.trimStart s) = true.
Proof.
  induction s as [|a s IH]; simpl; [done|]. intros [Ha Hs]%andb_prop.
  destruct (Js.isWhiteSpace a); [by apply IH | simpl; by rewrite Ha, Hs].
Qed.

Lemma allUnits_trimEnd p s :
  Js.allUnits p s = true -> Js.allUnits p (Js.trimEnd s) = true.
Proof.
  induction s as [|a s IH]; simpl; [done|]. intros [Ha Hs]%andb_prop.
  specialize (IH Hs). destruct (Js.trimEnd s) as [|b t].
  - destruct (Js.isWhiteSpace a); simpl; [done | by rewrite Ha].
  - change (Js.allUnits p (String a (String b t)) = true).
    simpl in *. by rewrite Ha, IH.
Qed.

Lemma allUnits_trim p s :
  Js.allUnits p s = true -> Js.allUnits p (Js.trim s) = true.
Proof. intros H. by apply allUnits_trimEnd, allUnits_trimStart. Qed.

Lemma removeUnits_free p s :
  Js.allUnits (fun c => negb (p c)) (Js.removeUnits p s) = true.
Proof.
  induction s as [|a s IH]; simpl; [done|].
  destruct (p a) eqn:Ha; simpl; [done | by rewrite Ha, IH].
Qed.

Lemma removeUnits_id p s :
  Js.allUnits (fun c => negb (p c)) s = true -> Js.removeUnits p s = s.
Proof.
  induction s as [|a s IH]; simpl; [done|]. intros [Ha Hs]%andb_prop.
  apply negb_true_iff in Ha. by rewrite Ha, (IH Hs).
Qed.

End StringFacts.

(** ** The validator *)

(** A valid repository string and its two parts. *)
Lemma valid_repo_parts (s : string) :
  Validator.isValidRepoFormat s = true
  <-> exists o r,
        Js.split "/" s = [o; r]
        /\ s = o ++ "/" ++ r /\ o <> "" /\ r <> ""
        /\ freeOf "/" o = true /\ freeOf "/" r = true.
Proof.
  unfold Validator.isValidRepoFormat. split.
  - destruct (Js.truthy s) eqn:Hs; simpl; [|done].
    destruct (Js.split "/" s) as [|o [|r [|x xs]]] eqn:Hsplit; simpl; try done.
    intros [Ho Hr]%andb_prop. apply Nat.ltb_lt in Ho, Hr.
    destruct (split_first _ _ _ _ Hsplit) as [Hfo (rest & -> & Hrest)].
    destruct (split_first _ _ _ _ Hrest) as [Hfr ->].
    exists o, r. split_and!; try done.
    + intros ->. simpl in Ho. lia.
    + intros ->. simpl in Hr. lia.
  - intros (o & r & Hsplit & -> & Ho & Hr & Hfo & Hfr).
    rewrite Hsplit. simpl.
    destruct o as [|a o]; [done|]. destruct r as [|b r]; [done|]. done.
Qed.

(** X6.  A repository string is accepted exactly when it is an owner, one
    slash and a name, both of them non-empty and free of further
    slashes. *)
Theorem repo_format_iff :
  forall s : string,
    Validator.isValidRepoFormat s = true
    <-> exists o r,
          s = o ++ "/" ++ r /\ o <> "" /\ r <> ""
          /\ freeOf "/" o = true /\ freeOf "/" r = true.
Proof.
  intros s. rewrite valid_repo_parts. split.
  - intros (o & r & _ & H). by exists o, r.
  - intros (o & r & -> & Ho & Hr & Hfo & Hfr). exists o, r.
    split_and!; try done.
    change (o ++ "/" ++ r) with (o ++ String "/" r).
    by rewrite (split_append _ _ _ Hfo), (split_free _ _ Hfr).
Qed.

(** X7.  [parseRepo] returns the owner and the name exactly for the strings
    [owner/name] that are valid, so joining what it returns with a slash
    gives the input back; it returns nothing exactly for the strings the
    format check rejects. *)
Theorem parseRepo_round_trip :
  forall s : string,
    (forall o r,
        Validator.parseRepo s = Some (o, r)
        <-> s = o ++ "/" ++ r /\ o <> "" /\ r <> ""
            /\ freeOf "/" o = true /\ freeOf "/" r = true)
    /\ (Validator.parseRepo s = None
        <-> Validator.isValidRepoFormat s = false).
Proof.
  intros s. unfold Validator.parseRepo. split.
  - intros o r. split.
    + destruct (Validator.isValidRepoFormat s) eqn:Hv; simpl; [|done].
      apply valid_repo_parts in Hv as (o' & r' & Hsplit & H).
      rewrite Hsplit. simpl. by intros [= <- <-].
    + intros (-> & Ho & Hr & Hfo & Hfr).
      assert (Hsplit : Js.split "/" (o ++ "/" ++ r) = [o; r]).
      { change (o ++ "/" ++ r) with (o ++ String "/" r).
        by rewrite (split_append _ _ _ Hfo), (split_free _ _ Hfr). }
      assert (Hv : Validator.isValidRepoFormat (o ++ "/" ++ r) = true).
      { apply valid_repo_parts. by exists o, r. }
      rewrite Hv, Hsplit. done.
  - destruct (Validator.isValidRepoFormat s); simpl; by split.
Qed.

Lemma sanitizeInput_unfold (s : string) :
  Validator.sanitizeInput s
  = Js.trim (Js.removeUnits Validator.isDangerous s).
Proof. by destruct s. Qed.

(** X8.  What [sanitizeInput] returns holds none of the five characters it
    removes and neither begins nor ends with white space; sanitizing it
    again changes nothing; an input without those characters is only
    trimmed. *)
Theorem sanitizeInput_clean :
  forall s : string,
    let out := Validator.sanitizeInput s in
    Js.allUnits (fun c => negb (Validator.isDangerous c)) out = true
    /\ Js.trim out = out
    /\ Validator.sanitizeInput out = out
    /\ (Js.allUnits (fun c => negb (Validator.isDangerous c)) s = true ->
        out = Js.trim s).
Proof.
  intros s out. unfold out. rewrite !sanitizeInput_unfold.
  assert (Hfree : Js.allUnits (fun c => negb (Validator.isDangerous c))
                    (Js.trim (Js.removeUnits Validator.isDangerous s)) = true)
    by apply allUnits_trim, removeUnits_free.
  split_and!.
  - exact Hfree.
  - apply trim_idem.
  - rewrite (removeUnits_id _ _ Hfree). apply trim_idem.
  - intros Hs. by rewrite (removeUnits_id _ _ Hs).
Qed.

(** ** Credentials *)

(** A token of the accepted format is not blank. *)
Lemma token_format_not_blank (token : string) :
  Validator.isValidTokenFormat token = true ->
  Js.allUnits Js.isWhiteSpace token = false.
Proof.
  unfold Validator.isValidTokenFormat.
  destruct (Js.truthy token); cbn [negb]; [|done].
  intros [Hlen _]%andb_prop. apply Nat.leb_le in Hlen.
  destruct (Js.allUnits Js.isWhiteSpace token) eqn:Hws; [|done].
  apply trim_empty_iff in Hws. rewrite Hws in Hlen. simpl in Hlen. lia.
Qed.

Lemma newGitHubService_blank_free (token : string) :
  Js.allUnits Js.isWhiteSpace token = false ->
  GitHubService.newGitHubService token = inr token.
Proof.
  intros Hws. unfold GitHubService.newGitHubService.
  assert (Htrim : Js.trim token <> "").
  { intros H%trim_empty_iff. congruence. }
  assert (Ht : Js.truthy token = true) by (by destruct token).
  rewrite Ht. simpl. apply String.eqb_neq in Htrim. by rewrite Htrim.
Qed.

(** X9.  The constructor of the service throws exactly for a token that is
    empty or all white space; any other token is kept as given. *)
Theorem newGitHubService_rejects_blank :
  forall token : string,
    (GitHubService.newGitHubService token = inl "GitHub token is required"
     <-> Js.allUnits Js.isWhiteSpace token = true)
    /\ (Js.allUnits Js.isWhiteSpace token = false ->
        GitHubService.newGitHubService token = inr token).
Proof.
  intros token.
  destruct (Js.allUnits Js.isWhiteSpace token) eqn:Hws.
  - unfold GitHubService.newGitHubService.
    apply trim_empty_iff in Hws. rewrite Hws. simpl.
    rewrite orb_true_r. by split.
  - rewrite (newGitHubService_blank_free token Hws). by split.
Qed.

(** X10.  A token that [getGitHubToken] returns is the environment value
    itself, untrimmed; it has passed the format check, and the constructor
    of the service accepts it. *)
Theorem getGitHubToken_accepted :
  forall (env : option string) (token : string),
    Cli.getGitHubToken env = Some token ->
    env = Some token
    /\ Validator.isValidTokenFormat token = true
    /\ GitHubService.newGitHubService token = inr token.
Proof.
  intros env token. unfold Cli.getGitHubToken.
  destruct env as [t|]; [|done].
  destruct (Js.truthy t) eqn:Ht; simpl; [|done].
  destruct (Validator.isValidTokenFormat t) eqn:Hv; simpl; [|done].
  intros [= ->]. split; [done|]. split; [done|].
  apply newGitHubService_blank_free.
  apply token_format_not_blank. exact Hv.
Qed.

(** X10, witness: the classic token behind one space, as the environment
    holds it. *)
Lemma getGitHubToken_accepted_witness :
  Cli.getGitHubToken (Some Sample.paddedToken) = Some Sample.paddedToken
  /\ GitHubService.newGitHubService Sample.paddedToken = inr Sample.paddedToken.
Proof.
  assert (H : Cli.getGitHubToken (Some Sample.paddedToken)
              = Some Sample.paddedToken) by reflexivity.
  split; [exact H|].
  exact (proj2 (proj2 (getGitHubToken_accepted _ _ H))).
Defined.

(** ** Cache keys *)

(** The suffix of the key of a fetch. *)
Lemma cacheKey_shape (o : Types.FetchPRsOptions) :
  GitHubService.cacheKey o
  = (Types.owner o ++ String "/" (Types.repo o))
      ++ String ":"
           ("prs-" ++ Types.queryStateText (default Types.QOpen (Types.opt_state o))
              ++ "-" ++ Types.querySortText (default Types.QCreated (Types.opt_sort o))
              ++ "-" ++ Types.directionText (default Types.Desc (Types.opt_direction o))).
Proof. reflexivity. Qed.

Lemma suffix_free (st : Types.QueryState) (so : Types.QuerySort)
    (d : Types.Direction) :
  freeOf ":" ("prs-" ++ Types.queryStateText st ++ "-" ++ Types.querySortText so
                ++ "-" ++ Types.directionText d) = true.
Proof. by destruct st, so, d. Qed.

Lemma suffix_inj (st1 st2 : Types.QueryState) (so1 so2 : Types.QuerySort)
    (d1 d2 : Types.Direction) :
  "prs-" ++ Types.queryStateText st1 ++ "-" ++ Types.querySortText so1
    ++ "-" ++ Types.directionText d1
  = "prs-" ++ Types.queryStateText st2 ++ "-" ++ Types.querySortText so2
      ++ "-" ++ Types.directionText d2 ->
  st1 = st2 /\ so1 = so2 /\ d1 = d2.
Proof.
  destruct st1, so1, d1, st2, so2, d2; simpl; intros H;
    first [ done | discriminate H ].
Qed.

(** X11.  Two fetches whose owners hold no slash share a cache key only if
    they agree on owner, repository, state, sort and direction (defaults
    applied): distinct queries never read each other's entry. *)
Theorem cache_key_injective :
  forall o1 o2 : Types.FetchPRsOptions,
    freeOf "/" (Types.owner o1) = true ->
    freeOf "/" (Types.owner o2) = true ->
    GitHubService.cacheKey o1 = GitHubService.cacheKey o2 ->
    Types.owner o1 = Types.owner o2
    /\ Types.repo o1 = Types.repo o2
    /\ default Types.QOpen (Types.opt_state o1)
       = default Types.QOpen (Types.opt_state o2)
    /\ default Types.QCreated (Types.opt_sort o1)
       = default Types.QCreated (Types.opt_sort o2)
    /\ default Types.Desc (Types.opt_direction o1)
       = default Types.Desc (Types.opt_direction o2).
Proof.
  intros o1 o2 H1 H2. rewrite !cacheKey_shape. intros Hkey.
  apply append_sep_inj_r in Hkey as [Hbase Hsuffix]; [|apply suffix_free..].
  apply append_sep_inj_l in Hbase as [Ho Hr]; [|done..].
  apply suffix_inj in Hsuffix as (? & ? & ?). done.
Qed.

(** X11, witness: the same query asked with two page budgets. *)
Lemma cache_key_injective_witness :
  freeOf "/" (Types.owner Sample.fetchDefaults) = true
  /\ GitHubService.cacheKey Sample.fetchDefaults
     = GitHubService.cacheKey Sample.fetchNoPages
  /\ Types.repo Sample.fetchDefaults = Types.repo Sample.fetchNoPages.
Proof.
  assert (H : freeOf "/" (Types.owner Sample.fetchDefaults) = true)
    by reflexivity.
  assert (K : GitHubService.cacheKey Sample.fetchDefaults
              = GitHubService.cacheKey Sample.fetchNoPages) by reflexivity.
  split; [exact H|]. split; [exact K|].
  exact (proj1 (proj2 (cache_key_injective Sample.fetchDefaults
                         Sample.fetchNoPages H H K))).
Defined.

(** ** The requests and the items of a fetch *)

Section Trace.
Variables (api : GitHubService.Upstream) (q : GitHubService.ListParams)
  (maxPages : Z).

Lemma pagesUpTo_S n :
  pagesUpTo q (S n)
  = (pagesUpTo q n ++ [GitHubService.pageRequest q (1 + Z.of_nat n)])%list.
Proof.
  unfold pagesUpTo. rewrite seq_S, map_app. simpl.
  by rewrite Nat2Z.inj_succ, Z.add_1_l.
Qed.

(** One more request, for the page the counter names. *)
Lemma traced_request (st : GitHubService.LoopState) items :
  Traced api q maxPages st ->
  GitHubService.currentPage st
    = 1 + Z.of_nat (length (GitHubService.issued st)) ->
  GitHubService.currentPage st <= maxPages ->
  items
    = (GitHubService.allPRs st
       ++ pageItems api
            (GitHubService.pageRequest q (GitHubService.currentPage st)))%list ->
  forall page next,
    Traced api q maxPages
      (GitHubService.mkLoop items page next
         (GitHubService.issued st
          ++ [GitHubService.pageRequest q (GitHubService.currentPage st)])%list).
Proof.
  intros [Hi Hc Hitems] Hpage Hle -> page next. split; simpl.
  - rewrite length_app. simpl. rewrite Nat.add_1_r, pagesUpTo_S.
    by rewrite <- Hi, Hpage.
  - rewrite length_app. simpl. lia.
  - rewrite flat_map_app. simpl. rewrite app_nil_r. by rewrite <- Hitems.
Qed.

Lemma pageLoop_traced (st : GitHubService.LoopState) :
  Traced api q maxPages st ->
  GitHubService.currentPage st = 1 + Z.of_nat (length (GitHubService.issued st)) ->
  Traced api q maxPages (finalState (GitHubService.pageLoop api q maxPages st)).
Proof.
  remember (Z.to_nat (maxPages + 1 - GitHubService.currentPage st)) as n eqn:Hn.
  revert st Hn. induction n as [n IH] using lt_wf_ind. intros st Hn Ht Hpage.
  rewrite pageLoop_unfold.
  destruct (GitHubService.loopHasNext st
            && (GitHubService.currentPage st <=? maxPages)%Z) eqn:Hcond;
    [|done].
  apply andb_prop in Hcond as [_ Hle%Z.leb_le]. cbv zeta.
  destruct (api (GitHubService.pageRequest q (GitHubService.currentPage st)))
    as [resp|e] eqn:Hapi.
  2: { simpl. apply traced_request; try done.
       unfold pageItems. by rewrite Hapi, app_nil_r. }
  destruct (GitHubService.resp_data resp) as [|d ds] eqn:Hdata.
  { simpl. apply traced_request; try done.
    unfold pageItems. by rewrite Hapi, Hdata, app_nil_r. }
  eapply IH; [| reflexivity | |]; simpl.
  - lia.
  - apply traced_request; try done.
    unfold pageItems. by rewrite Hapi, Hdata.
  - rewrite length_app. simpl. lia.
Qed.

Lemma initialLoop_traced : Traced api q maxPages GitHubService.initialLoop.
Proof. split; simpl; [done | lia | done]. Qed.

End Trace.

(** The requests and, on success, the items of a fetch that was not served
    from the cache. *)
Lemma fetch_miss_traced api tLookup tStore options
    (cache : gmap string (CacheService.CacheEntry GitHubService.FetchResult))
    out cache' log :
  (CacheService.get tLookup (GitHubService.cacheKey options) cache).1 = None ->
  GitHubService.fetchPullRequests api tLookup tStore options cache
    = (out, cache', log) ->
  log = pagesUpTo (optionsRequest options 1) (length log)
  /\ Z.of_nat (length log) <= Z.max 0 (default 5 (Types.opt_maxPages options))
  /\ forall r, out = inr r ->
       GitHubService.prs r = flat_map (pageItems api) log
       /\ cache' = CacheService.set tStore (GitHubService.cacheKey options) r None
                     (CacheService.get tLookup (GitHubService.cacheKey options)
                        cache).2.
Proof.
  intros Hmiss Hfetch.
  destruct (fetch_cases api tLookup tStore options cache)
    as [(cached & Hhit & _) | (_ & _ & Hrun)]; [congruence|].
  rewrite Hrun in Hfetch. clear Hrun.
  pose proof (pageLoop_traced api (optionsRequest options 1)
                (default 5 (Types.opt_maxPages options))
                GitHubService.initialLoop
                (initialLoop_traced _ _ _) eq_refl) as Ht.
  change (GitHubService.mkListParams _ _ _ _ _ _ 1)
    with (optionsRequest options 1) in Hfetch.
  destruct (GitHubService.pageLoop _ _ _ _) as [st | e st];
    simpl in Hfetch, Ht; inversion Hfetch; subst; clear Hfetch;
    destruct Ht as [Hi Hc Hitems]; (split; [done|]); (split; [done|]).
  - by intros r [= <-].
  - by intros r.
Qed.


(** X13.  The items a fetch resolves to, when it is not served from the
    cache, are the items of the pages received, page after page in the order
    of the requests and within a page in the order received;
    [totalFetched] is their number. *)
Theorem fetch_accumulates_in_order :
  forall (api : GitHubService.Upstream) (tLookup tStore : Z)
         (options : Types.FetchPRsOptions)
         (cache : gmap string (CacheService.CacheEntry GitHubService.FetchResult))
         r cache' log,
    (CacheService.get tLookup (GitHubService.cacheKey options) cache).1 = None ->
    GitHubService.fetchPullRequests api tLookup tStore options cache
      = (inr r, cache', log) ->
    GitHubService.prs r = flat_map (pageItems api) log
    /\ Types.totalFetched (GitHubService.pagination r)
       = Z.of_nat (length (flat_map (pageItems api) log)).
Proof.
  intros api tLookup tStore options cache r cache' log Hmiss Hfetch.
  destruct (fetch_miss_traced _ _ _ _ _ _ _ _ Hmiss Hfetch) as (_ & _ & Hr).
  destruct (Hr r eq_refl) as [Hprs _].
  destruct (fetch_page_summary _ _ _ _ _ _ _ _ Hmiss Hfetch) as [Htotal _].
  split; [exact Hprs|]. by rewrite Htotal, Hprs.
Qed.

(** X14.  A fetch that resolves without a cache hit stores what it resolves
    to under its key, stamped with the time of the write and the default TTL
    of five minutes, and leaves every other key as it was. *)
Theorem fetch_success_caches :
  forall (api : GitHubService.Upstream) (tLookup tStore : Z)
         (options : Types.FetchPRsOptions)
         (cache : gmap string (CacheService.CacheEntry GitHubService.FetchResult))
         r cache' log,
    (CacheService.get tLookup (GitHubService.cacheKey options) cache).1 = None ->
    GitHubService.fetchPullRequests api tLookup tStore options cache
      = (inr r, cache', log) ->
    cache' !! GitHubService.cacheKey options
      = Some (CacheService.mkEntry r tStore 300000)
    /\ (forall k, k <> GitHubService.cacheKey options -> cache' !! k = cache !! k).
Proof.
  intros api tLookup tStore options cache r cache' log Hmiss Hfetch.
  destruct (fetch_miss_traced _ _ _ _ _ _ _ _ Hmiss Hfetch) as (_ & _ & Hr).
  destruct (Hr r eq_refl) as [_ ->]. unfold CacheService.set. split.
  - apply lookup_insert_eq.
  - intros k Hk. rewrite lookup_insert_ne by done. by apply get_other_keys.
Qed.

(** X13, witness: two pages, of two items and of one. *)
Lemma fetch_accumulates_in_order_witness :
  let run := GitHubService.fetchPullRequests Sample.upstreamTwoPages 10 20
               Sample.fetchDefaults ∅ in
  (CacheService.get 10 (GitHubService.cacheKey Sample.fetchDefaults)
     (∅ : gmap string (CacheService.CacheEntry GitHubService.FetchResult))).1
    = None
  /\ GitHubService.prs (Sample.resolved run.1.1)
     = [Sample.zebra; Sample.alpha; Sample.beta]
  /\ run.2 = [Sample.defaultRequest 1; Sample.defaultRequest 2].
Proof.
  intros run.
  assert (Hmiss : (CacheService.get 10 (GitHubService.cacheKey Sample.fetchDefaults)
     (∅ : gmap string (CacheService.CacheEntry GitHubService.FetchResult))).1
    = None) by reflexivity.
  assert (Hrun : run = (inr (Sample.resolved run.1.1), run.1.2, run.2))
    by (vm_compute; reflexivity).
  destruct (fetch_accumulates_in_order Sample.upstreamTwoPages 10 20
              Sample.fetchDefaults ∅ _ _ _ Hmiss Hrun) as [Hprs _].
  split; [exact Hmiss|]. split; [|reflexivity].
  etransitivity; [exact Hprs|]. reflexivity.
Defined.

(** X14, witness: the same fetch, and the entry it leaves. *)
Lemma fetch_success_caches_witness :
  let run := GitHubService.fetchPullRequests Sample.upstreamTwoPages 10 20
               Sample.fetchDefaults ∅ in
  (CacheService.get 10 (GitHubService.cacheKey Sample.fetchDefaults)
     (∅ : gmap string (CacheService.CacheEntry GitHubService.FetchResult))).1
    = None
  /\ run.1.2 !! "o/r:prs-open-created-desc"
     = Some (CacheService.mkEntry (Sample.resolved run.1.1) 20 300000).
Proof.
  intros run.
  assert (Hmiss : (CacheService.get 10 (GitHubService.cacheKey Sample.fetchDefaults)
     (∅ : gmap string (CacheService.CacheEntry GitHubService.FetchResult))).1
    = None) by reflexivity.
  assert (Hrun : run = (inr (Sample.resolved run.1.1), run.1.2, run.2))
    by (vm_compute; reflexivity).
  destruct (fetch_success_caches Sample.upstreamTwoPages 10 20
              Sample.fetchDefaults ∅ _ _ _ Hmiss Hrun) as [Hentry _].
  split; [exact Hmiss | exact Hentry].
Defined.

(** X15, witness: a fetch of two pages, then the same query with another
    page size and page budget four minutes later, against an upstream that
    would answer 404. *)
Lemma fetch_again_hits_cache_witness :
  let run := GitHubService.fetchPullRequests Sample.upstreamTwoPages 10 20
               Sample.fetchDefaults ∅ in
  let again := GitHubService.fetchPullRequests Sample.upstream404 240020 240030
                 Sample.fetchSmallPages run.1.2 in
  GitHubService.cacheKey Sample.fetchSmallPages
    = GitHubService.cacheKey Sample.fetchDefaults
  /\ 240020 - 20 <= CacheService.defaultTTL
  /\ again = (inr (Sample.resolved run.1.1), run.1.2, []).
Proof.
  intros run again.
  assert (Hmiss : (CacheService.get 10 (GitHubService.cacheKey Sample.fetchDefaults)
     (∅ : gmap string (CacheService.CacheEntry GitHubService.FetchResult))).1
    = None) by reflexivity.
  assert (Hrun : run = (inr (Sample.resolved run.1.1), run.1.2, run.2))
    by (vm_compute; reflexivity).
  assert (Hkey : GitHubService.cacheKey Sample.fetchSmallPages
                 = GitHubService.cacheKey Sample.fetchDefaults) by reflexivity.
  assert (Httl : 240020 - 20 <= CacheService.defaultTTL)
    by (vm_compute; discriminate).
  split; [exact Hkey|]. split; [exact Httl|].
  exact (fetch_again_hits_cache Sample.upstreamTwoPages Sample.upstream404
           10 20 240020 240030 Sample.fetchDefaults Sample.fetchSmallPages ∅
           _ _ _ Hmiss Hrun Hkey Httl).
Defined.

(** X16.  An entry that has expired when the fetch looks it up counts for
    nothing: the fetch proceeds, and ends, as if the entry had been
    removed beforehand. *)
Theorem fetch_ignores_expired_entry :
  forall (api : GitHubService.Upstream) (tLookup tStore : Z)
         (options : Types.FetchPRsOptions)
         (cache : gmap string (CacheService.CacheEntry GitHubService.FetchResult))
         (e : CacheService.CacheEntry GitHubService.FetchResult),
    cache !! GitHubService.cacheKey options = Some e ->
    CacheService.ttl e < tLookup - CacheService.timestamp e ->
    GitHubService.fetchPullRequests api tLookup tStore options cache
    = GitHubService.fetchPullRequests api tLookup tStore options
        (base.delete (GitHubService.cacheKey options) cache)
    /\ (CacheService.get tLookup (GitHubService.cacheKey options) cache).1 = None.
Proof.
  intros api tLookup tStore options cache e He Hexp.
  unfold GitHubService.fetchPullRequests.
  rewrite (get_expired cache _ tLookup e He Hexp).
  rewrite (get_absent (base.delete (GitHubService.cacheKey options) cache)
             _ tLookup (lookup_delete_eq _ _)).
  done.
Qed.

(** X16, witness: the entry stored at time 0, looked up after 300001 ms. *)
Lemma fetch_ignores_expired_entry_witness :
  Sample.staleCache !! GitHubService.cacheKey Sample.fetchDefaults
    = Some (CacheService.mkEntry Sample.emptyResult 0 CacheService.defaultTTL)
  /\ GitHubService.fetchPullRequests Sample.upstreamTwoPages 300001 300002
       Sample.fetchDefaults Sample.staleCache
     = GitHubService.fetchPullRequests Sample.upstreamTwoPages 300001 300002
         Sample.fetchDefaults
         (base.delete (GitHubService.cacheKey Sample.fetchDefaults)
            Sample.staleCache).
Proof.
  assert (H : Sample.staleCache !! GitHubService.cacheKey Sample.fetchDefaults
              = Some (CacheService.mkEntry Sample.emptyResult 0
                        CacheService.defaultTTL))
    by apply lookup_singleton_eq.
  split; [exact H|].
  refine (proj1 (fetch_ignores_expired_entry Sample.upstreamTwoPages 300001
                   300002 Sample.fetchDefaults Sample.staleCache _ H _)).
  vm_compute. reflexivity.
Defined.

(** The message of a failure, by its kind. *)
Lemma fetchErrorMessage_by_kind (o r : string) (e : GitHubService.Thrown) :
  GitHubService.fetchErrorMessage o r e
  = match errorKind e with
    | NotFound =>
        "Repository " ++ o ++ "/" ++ r ++ " not found or you don't have access"
    | AuthFailure => "Authentication failed. Please check your GitHub token"
    | RateLimited => "GitHub API rate limit exceeded. Please try again later"
    | Forbidden => "Access forbidden. Please check your token permissions"
    | Generic =>
        "Failed to fetch pull requests: " ++ GitHubService.getErrorMessage e
    end.
Proof.
  destruct e as [status m| |]; simpl; try done.
  destruct (status =? 404)%Z; [done|]. destruct (status =? 401)%Z; [done|].
  destruct (status =? 403)%Z; [|done]. by destruct (Js.includes "rate limit" m).
Qed.

(** X17.  The message a failed fetch throws tells the kind of the failure:
    two failures of the same fetch with the same message are of the same
    kind, and when that kind is the generic one they wrap the same
    underlying message. *)
Theorem fetch_error_kinds_distinguishable :
  forall (o r : string) (e1 e2 : GitHubService.Thrown),
    GitHubService.fetchErrorMessage o r e1 = GitHubService.fetchErrorMessage o r e2 ->
    errorKind e1 = errorKind e2
    /\ (errorKind e1 = Generic ->
        GitHubService.getErrorMessage e1 = GitHubService.getErrorMessage e2).
Proof.
  intros o r e1 e2. rewrite !fetchErrorMessage_by_kind.
  destruct (errorKind e1), (errorKind e2); simpl; intros H;
    try discriminate H; try (split; [done | done]).
  split; [done|]. intros _. by injection H.
Qed.

(** X17, witness: two 404 answers with different texts. *)
Lemma fetch_error_kinds_distinguishable_witness :
  GitHubService.fetchErrorMessage "o" "r" (GitHubService.RequestError 404 "Not Found")
  = GitHubService.fetchErrorMessage "o" "r" (GitHubService.RequestError 404 "Gone")
  /\ errorKind (GitHubService.RequestError 404 "Not Found")
     = errorKind (GitHubService.RequestError 404 "Gone").
Proof.
  assert (H : GitHubService.fetchErrorMessage "o" "r"
                (GitHubService.RequestError 404 "Not Found")
              = GitHubService.fetchErrorMessage "o" "r"
                  (GitHubService.RequestError 404 "Gone")) by reflexivity.
  split; [exact H|].
  exact (proj1 (fetch_error_kinds_distinguishable _ _ _ _ H)).
Defined.

(** ** When the loop stops *)

Section Stops.
Variables (api : GitHubService.Upstream) (q : GitHubService.ListParams)
  (maxPages : Z).

Lemma chained_all (st : GitHubService.LoopState) :
  Chained api st -> GitHubService.loopHasNext st = true ->
  Forall (continuing api) (GitHubService.issued st).
Proof.
  intros Hc Hnext.
  destruct (GitHubService.issued st) as [|x l] eqn:Hi using rev_ind;
    [constructor|].
  destruct (Hc l x) as [Hinit Hlast]; [by rewrite Hi|].
  apply Forall_app. split; [done|]. constructor; [by apply Hlast | constructor].
Qed.

(** After one more request, whatever its answer, every request before it
    had let the loop go on. *)
Lemma chained_request (st : GitHubService.LoopState) items page next rq :
  Chained api st -> GitHubService.loopHasNext st = true ->
  (next = true -> continuing api rq) ->
  Chained api (GitHubService.mkLoop items page next
                 (GitHubService.issued st ++ [rq])%list).
Proof.
  intros Hc Hnext Hrq init rq' Heq. simpl in Heq.
  apply app_inj_tail in Heq as [<- <-]. simpl.
  split; [by apply chained_all | exact Hrq].
Qed.

Lemma pageLoop_chained (st : GitHubService.LoopState) :
  Chained api st ->
  forall init rq,
    GitHubService.issued (finalState (GitHubService.pageLoop api q maxPages st))
      = (init ++ [rq])%list ->
    Forall (continuing api) init.
Proof.
  remember (Z.to_nat (maxPages + 1 - GitHubService.currentPage st)) as n eqn:Hn.
  revert st Hn. induction n as [n IH] using lt_wf_ind. intros st Hn Hc.
  rewrite pageLoop_unfold.
  destruct (GitHubService.loopHasNext st
            && (GitHubService.currentPage st <=? maxPages)%Z) eqn:Hcond.
  2: { simpl. intros init rq Heq. by apply (Hc init rq). }
  apply andb_prop in Hcond as [Hnext Hle%Z.leb_le]. cbv zeta.
  destruct (api (GitHubService.pageRequest q (GitHubService.currentPage st)))
    as [resp|e] eqn:Hapi.
  2: { simpl. intros init rq Heq. apply app_inj_tail in Heq as [<- _].
       by apply chained_all. }
  destruct (GitHubService.resp_data resp) as [|d ds] eqn:Hdata.
  { simpl. intros init rq Heq. apply app_inj_tail in Heq as [<- _].
    by apply chained_all. }
  eapply IH; [| reflexivity |]; simpl; [lia|].
  apply chained_request; [done..|].
  intros Hlink. exists resp. split; [done|]. split; [by rewrite Hdata | done].
Qed.

Lemma initialLoop_chained : Chained api GitHubService.initialLoop.
Proof. intros init rq Heq. simpl in Heq. by destruct init. Qed.

End Stops.

(** X25.  A fetch goes on exactly as long as it can: every request but the
    last was answered with a page that had items and named a next page; and
    if the last was answered so too, the fetch stopped only because it had
    issued [maxPages] requests. *)
Theorem fetch_stops_when_it_must :
  forall (api : GitHubService.Upstream) (tLookup tStore : Z)
         (options : Types.FetchPRsOptions)
         (cache : gmap string (CacheService.CacheEntry GitHubService.FetchResult)),
    let log := (GitHubService.fetchPullRequests api tLookup tStore options
                  cache).2 in
    forall init rq,
      log = (init ++ [rq])%list ->
      Forall (continuing api) init
      /\ (continuing api rq ->
          Z.of_nat (length log) = default 5 (Types.opt_maxPages options)).
Proof.
  intros api tLookup tStore options cache log. unfold log. clear log.
  destruct (GitHubService.fetchPullRequests api tLookup tStore options cache)
    as [[out cache'] log] eqn:Hfetch. simpl. intros init rq Hlog.
  destruct (fetch_cases api tLookup tStore options cache)
    as [(cached & _ & Hhit) | (Hmiss & Hexit & Hrun)].
  { rewrite Hhit in Hfetch. injection Hfetch as _ _ <-. by destruct init. }
  rewrite Hrun in Hfetch. clear Hrun.
  pose proof (pageLoop_chained api (optionsRequest options 1)
                (default 5 (Types.opt_maxPages options))
                GitHubService.initialLoop (initialLoop_chained api)) as Hchain.
  pose proof (pageLoop_traced api (optionsRequest options 1)
                (default 5 (Types.opt_maxPages options))
                GitHubService.initialLoop
                (initialLoop_traced _ _ _) eq_refl) as [_ Hcap _].
  change (GitHubService.mkListParams _ _ _ _ _ _ 1)
    with (optionsRequest options 1) in Hfetch, Hexit.
  destruct (GitHubService.pageLoop _ _ _ _) as [st' | e' st'];
    simpl in Hfetch, Hchain, Hcap; injection Hfetch as _ _ Hissued;
    rewrite Hissued in Hchain, Hcap;
    (split; [by apply (Hchain init rq)|]);
    intros (resp & Hresp & Hdata & Hlink);
    inversion Hexit as [st Hinv Hc | st resp0 Hinv Hle Hapi Hd
                        | st e0 Hinv Hle Hapi]; subst; simpl in *.
  - destruct Hinv as [Hpage _ Hlast]. rewrite Hlog, last_snoc in Hlast.
    destruct Hlast as (resp' & _ & Hresp' & Hnext).
    rewrite Hresp in Hresp'. injection Hresp' as <-.
    rewrite Hnext, Hlink in Hc. simpl in Hc. apply Z.leb_gt in Hc.
    rewrite Hlog in Hpage, Hcap |- *. rewrite length_app in *. simpl in *. lia.
  - apply app_inj_tail in Hlog as [_ <-]. congruence.
  - apply app_inj_tail in Hlog as [_ <-]. congruence.
Qed.

(** X25, witness: against an endless supply of full pages the default
    fetch issues five requests, the last of which was answered like the
    others. *)
Lemma fetch_stops_when_it_must_witness :
  let log := (GitHubService.fetchPullRequests Sample.upstreamEndless 10 20
                Sample.fetchDefaults ∅).2 in
  log = (map Sample.defaultRequest [1; 2; 3; 4] ++ [Sample.defaultRequest 5])%list
  /\ continuing Sample.upstreamEndless (Sample.defaultRequest 5)
  /\ Z.of_nat (length log) = 5.
Proof.
  intros log.
  assert (Hlog : log = (map Sample.defaultRequest [1; 2; 3; 4]
                          ++ [Sample.defaultRequest 5])%list) by reflexivity.
  assert (Hlast : continuing Sample.upstreamEndless (Sample.defaultRequest 5)).
  { eexists. split; [reflexivity|]. split; [discriminate | reflexivity]. }
  split; [exact Hlog|]. split; [exact Hlast|].
  exact (proj2 (fetch_stops_when_it_must Sample.upstreamEndless 10 20
                  Sample.fetchDefaults ∅ _ _ Hlog) Hlast).
Defined.

(** ** Stable sorting by a consistent comparator *)

Section Preorder.
Context {A : Type}.
Variable cmp : A -> A -> JsArray.JsNumber.
Hypothesis cmp_order : totalPreorder cmp.

(** [a] does not come after [b]. *)
Let le (a b : A) : Prop := JsArray.isPositive (cmp a b) = false.

Lemma positive_not_negative (v : JsArray.JsNumber) :
  JsArray.isPositive v = true -> JsArray.isNegative v = false.
Proof.
  destruct v as [x|]; simpl; [|done]. rewrite Z.ltb_lt, Z.ltb_ge. lia.
Qed.

Lemma le_of_positive a b : JsArray.isPositive (cmp a b) = true -> le b a.
Proof.
  intros H. unfold le. rewrite (proj1 cmp_order b a).
  by apply positive_not_negative.
Qed.

Lemma tied_refl a : tied cmp a a = true.
Proof.
  unfold tied. pose proof (proj1 cmp_order a a) as H.
  destruct (JsArray.isPositive (cmp a a)) eqn:Hp; [|by rewrite <- H].
  apply positive_not_negative in Hp. congruence.
Qed.

Lemma tied_le a b : tied cmp a b = true -> le a b /\ le b a.
Proof.
  unfold tied, le. intros [Hp Hn]%andb_prop.
  apply negb_true_iff in Hp, Hn. split; [done|].
  by rewrite (proj1 cmp_order b a).
Qed.

Lemma le_tied a b : le a b -> le b a -> tied cmp a b = true.
Proof.
  unfold tied, le. intros Hab Hba. rewrite Hab.
  rewrite (proj1 cmp_order b a) in Hba. by rewrite Hba.
Qed.

Lemma insertSorted_ordered x l :
  StronglySorted le l -> StronglySorted le (JsArray.insertSorted cmp x l).
Proof.
  induction 1 as [|y l Hl IH Hy]; simpl; [repeat constructor|].
  destruct (JsArray.isPositive (cmp x y)) eqn:Hpos.
  - constructor; [exact IH|].
    rewrite insertSorted_perm. constructor; [|exact Hy].
    by apply le_of_positive.
  - constructor; [by constructor|]. constructor; [exact Hpos|].
    eapply Forall_impl; [exact Hy|]. intros z Hz.
    exact (proj2 cmp_order x y z Hpos Hz).
Qed.

(** The result is in ascending order. *)
Lemma stableSort_ordered l : StronglySorted le (JsArray.stableSort cmp l).
Proof.
  induction l as [|x l IH]; [constructor|].
  change (JsArray.stableSort cmp (x :: l))
    with (JsArray.insertSorted cmp x (JsArray.stableSort cmp l)).
  by apply insertSorted_ordered.
Qed.

Lemma insertSorted_front x l :
  Forall (le x) l -> JsArray.insertSorted cmp x l = x :: l.
Proof. destruct 1 as [|y l Hy _]; simpl; [done|]. by rewrite Hy. Qed.

(** A list in ascending order is left as it is. *)
Lemma stableSort_fixed l :
  StronglySorted le l -> JsArray.stableSort cmp l = l.
Proof.
  induction 1 as [|x l Hl IH Hx]; [done|].
  change (JsArray.stableSort cmp (x :: l))
    with (JsArray.insertSorted cmp x (JsArray.stableSort cmp l)).
  rewrite IH. by apply insertSorted_front.
Qed.

Lemma filter_insertSorted (p : A -> bool) x l :
  StronglySorted le l ->
  List.filter p (JsArray.insertSorted cmp x l)
  = if p x then JsArray.insertSorted cmp x (List.filter p l)
    else List.filter p l.
Proof.
  induction 1 as [|y l Hl IH Hy]; [simpl; by destruct (p x)|].
  cbn [JsArray.insertSorted].
  destruct (JsArray.isPositive (cmp x y)) eqn:Hpos.
  - cbn [List.filter]. rewrite IH.
    destruct (p y), (p x); cbn [JsArray.insertSorted]; by rewrite ?Hpos.
  - assert (Hx : Forall (le x) (y :: l)).
    { constructor; [exact Hpos|]. eapply Forall_impl; [exact Hy|].
      intros z Hz. exact (proj2 cmp_order x y z Hpos Hz). }
    change (List.filter p (x :: y :: l))
      with (if p x then x :: List.filter p (y :: l)
            else List.filter p (y :: l)).
    destruct (p x); [|done].
    rewrite insertSorted_front; [done|].
    apply Forall_forall. intros z Hz%list_elem_of_In%filter_In.
    rewrite Forall_forall in Hx. apply Hx, list_elem_of_In, Hz.
Qed.

(** Filtering the sorted list is sorting the filtered list. *)
Lemma filter_stableSort (p : A -> bool) l :
  List.filter p (JsArray.stableSort cmp l)
  = JsArray.stableSort cmp (List.filter p l).
Proof.
  induction l as [|x l IH]; [done|].
  change (JsArray.stableSort cmp (x :: l))
    with (JsArray.insertSorted cmp x (JsArray.stableSort cmp l)).
  rewrite filter_insertSorted by apply stableSort_ordered. simpl.
  destruct (p x); [|exact IH].
  change (JsArray.stableSort cmp (x :: List.filter p l))
    with (JsArray.insertSorted cmp x (JsArray.stableSort cmp (List.filter p l))).
  by rewrite IH.
Qed.

Lemma tied_ordered a l :
  Forall (fun x => tied cmp a x = true) l -> StronglySorted le l.
Proof.
  induction 1 as [|x l Hx Hl IH]; constructor; [exact IH|].
  eapply Forall_impl; [exact Hl|]. intros z Hz.
  apply tied_le in Hx as [_ Hxa]. apply tied_le in Hz as [Haz _].
  exact (proj2 cmp_order x a z Hxa Haz).
Qed.

(** Items that compare equal keep the order they had. *)
Lemma stableSort_stable a l :
  List.filter (tied cmp a) (JsArray.stableSort cmp l)
  = List.filter (tied cmp a) l.
Proof.
  rewrite filter_stableSort. apply stableSort_fixed, (tied_ordered a).
  apply Forall_forall. intros x Hx%list_elem_of_In%filter_In. apply Hx.
Qed.

(** Two arrangements of the same items that are both in ascending order and
    both keep tied items in the same order are the same list. *)
Lemma ordered_stable_unique l1 l2 :
  StronglySorted le l1 -> StronglySorted le l2 -> l1 ≡ₚ l2 ->
  (forall a, List.filter (tied cmp a) l1 = List.filter (tied cmp a) l2) ->
  l1 = l2.
Proof.
  intros H1. revert l2. induction H1 as [|a l1 Hl1 IH Ha]; intros l2 H2 Hp Ht.
  { symmetry. by apply Permutation_nil. }
  destruct H2 as [|b l2 Hl2 Hb].
  { by apply Permutation_nil_r in Hp. }
  assert (Hab : le a b).
  { assert (Hin : b ∈ a :: l1) by (rewrite Hp; left).
    rewrite Forall_forall in Ha. inv Hin; [|by apply Ha].
    apply tied_le, tied_refl. }
  assert (Hba : le b a).
  { assert (Hin : a ∈ b :: l2) by (rewrite <- Hp; left).
    rewrite Forall_forall in Hb. inv Hin; [|by apply Hb].
    apply tied_le, tied_refl. }
  pose proof (Ht a) as Hta. simpl in Hta.
  rewrite tied_refl, (le_tied a b Hab Hba) in Hta.
  injection Hta as <- Hta. f_equal. apply IH.
  - exact Hl2.
  - by apply (inj (a ::.)).
  - intros x. pose proof (Ht x) as Htx. simpl in Htx.
    destruct (tied cmp x a); [by injection Htx | exact Htx].
Qed.

End Preorder.

Section Descending.
Context {A : Type}.
Variable cmp : A -> A -> JsArray.JsNumber.
Hypothesis cmp_order : totalPreorder cmp.

(** The comparator of the descending direction. *)
Let neg (a b : A) : JsArray.JsNumber := JsArray.numNeg (cmp a b).

Lemma neg_totalPreorder : totalPreorder neg.
Proof.
  destruct cmp_order as [Hswap Htrans]. unfold neg. split.
  - intros a b. by rewrite isPositive_numNeg, isNegative_numNeg, Hswap.
  - intros a b c. rewrite !isPositive_numNeg, <- !Hswap. eauto.
Qed.

Lemma tied_neg a b : tied neg a b = tied cmp a b.
Proof.
  unfold tied, neg. rewrite isPositive_numNeg, isNegative_numNeg.
  apply andb_comm.
Qed.

Lemma ordered_rev l :
  StronglySorted (fun a b => JsArray.isPositive (cmp a b) = false) l ->
  StronglySorted (fun a b => JsArray.isPositive (neg a b) = false) (rev l).
Proof.
  induction 1 as [|x l Hl IH Hx]; simpl; [constructor|].
  apply StronglySorted_app. split_and!; [| exact IH | repeat constructor].
  intros y z Hy Hz. apply list_elem_of_singleton in Hz as ->.
  unfold neg. rewrite isPositive_numNeg, <- (proj1 cmp_order).
  rewrite Forall_forall in Hx. apply Hx.
  apply list_elem_of_In. apply list_elem_of_In in Hy. by apply in_rev.
Qed.

(** Sorting with the negated comparator is reversing, sorting and reversing
    again. *)
Lemma stableSort_neg_reverse l :
  JsArray.stableSort neg l = rev (JsArray.stableSort cmp (rev l)).
Proof.
  apply (ordered_stable_unique neg neg_totalPreorder).
  - apply stableSort_ordered, neg_totalPreorder.
  - apply ordered_rev. by apply stableSort_ordered.
  - rewrite stableSort_perm, <- Permutation_rev, stableSort_perm.
    apply Permutation_rev.
  - intros a. rewrite (stableSort_stable neg neg_totalPreorder).
    rewrite !(filter_ext _ _ (tied_neg a)).
    rewrite filter_rev, (stableSort_stable cmp cmp_order), filter_rev.
    by rewrite rev_involutive.
Qed.

End Descending.

(** ** The query stage *)

(** The combined comment count ranks the items, whatever the host. *)
Lemma comments_totalPreorder getTime localeCompare :
  totalPreorder (Formatter.compareValue getTime localeCompare Types.FComments).
Proof.
  split; simpl.
  - intros a b.
    destruct (Z.ltb_spec 0 (Types.comments a + Types.review_comments a
                              - (Types.comments b + Types.review_comments b))),
             (Z.ltb_spec (Types.comments b + Types.review_comments b
                            - (Types.comments a + Types.review_comments a)) 0);
      (done || lia).
  - intros a b c. rewrite !Z.ltb_ge. lia.
Qed.









Lemma filter_sublist {A : Type} (p : A -> bool) (l : list A) :
  List.filter p l `sublist_of` l.
Proof.
  induction l as [|x l IH]; simpl; [constructor|].
  destruct (p x); by constructor.
Qed.

Lemma matchesCriteria_only (options : Types.FilterOptions) (pr : Types.PullRequest) :
  matchesCriteria (onlyAuthor options) pr
  && (matchesCriteria (onlyLabel options) pr
      && matchesCriteria (onlyComments options) pr)
  = matchesCriteria options pr.
Proof.
  unfold matchesCriteria, onlyAuthor, onlyLabel, onlyComments,
    authorCriterion, labelCriterion, commentsCriterion. simpl.
  by rewrite !andb_true_r.
Qed.

(** X22.  Criteria compose: filtering by one set of criteria and then by
    another keeps the items that meet both, whichever comes first; applying
    the author, the label and the comment criterion of a set in three calls
    gives what one call with the whole set gives. *)
Theorem filter_criteria_compose :
  forall (h : gmap nat (list Types.PullRequest)) (prs : nat)
         (items : list Types.PullRequest) (c1 c2 : Types.FilterOptions),
    h !! prs = Some items ->
    let first := Formatter.filterPullRequests h prs c1 in
    let both := Formatter.filterPullRequests first.2 first.1 c2 in
    let first' := Formatter.filterPullRequests h prs c2 in
    let both' := Formatter.filterPullRequests first'.2 first'.1 c1 in
    let byAuthor := Formatter.filterPullRequests h prs (onlyAuthor c1) in
    let byLabel := Formatter.filterPullRequests byAuthor.2 byAuthor.1
                     (onlyLabel c1) in
    let byComments := Formatter.filterPullRequests byLabel.2 byLabel.1
                        (onlyComments c1) in
    JsArray.elements both.2 both.1
      = List.filter (fun pr => matchesCriteria c1 pr && matchesCriteria c2 pr)
          items
    /\ JsArray.elements both'.2 both'.1 = JsArray.elements both.2 both.1
    /\ JsArray.elements byComments.2 byComments.1
       = JsArray.elements first.2 first.1.
Proof.
  intros h prs items c1 c2 Hitems first both first' both' byAuthor byLabel
    byComments.
  destruct (filterPullRequests_spec h prs c1 items Hitems) as (H1 & _ & _).
  fold first in H1.
  destruct (filterPullRequests_spec first.2 first.1 c2 _ H1) as (H12 & _ & _).
  fold both in H12.
  destruct (filterPullRequests_spec h prs c2 items Hitems) as (H2 & _ & _).
  fold first' in H2.
  destruct (filterPullRequests_spec first'.2 first'.1 c1 _ H2) as (H21 & _ & _).
  fold both' in H21.
  destruct (filterPullRequests_spec h prs (onlyAuthor c1) items Hitems)
    as (Ha & _ & _). fold byAuthor in Ha.
  destruct (filterPullRequests_spec byAuthor.2 byAuthor.1 (onlyLabel c1) _ Ha)
    as (Hl & _ & _). fold byLabel in Hl.
  destruct (filterPullRequests_spec byLabel.2 byLabel.1 (onlyComments c1) _ Hl)
    as (Hc & _ & _). fold byComments in Hc.
  rewrite (elements_lookup _ _ _ H12), (elements_lookup _ _ _ H21),
    (elements_lookup _ _ _ Hc), (elements_lookup _ _ _ H1), !filter_andb.
  split_and!.
  - done.
  - apply filter_ext. intros pr. apply andb_comm.
  - apply filter_ext. intros pr. apply matchesCriteria_only.
Qed.

(** X22, witness: by author alice and by at least five comments. *)
Lemma filter_criteria_compose_witness :
  let c1 := Types.mkFilterOptions (Some "alice") None None in
  let c2 := Types.mkFilterOptions None None (Some 5) in
  let first := Formatter.filterPullRequests Sample.heap4 0%nat c1 in
  let both := Formatter.filterPullRequests first.2 first.1 c2 in
  let first' := Formatter.filterPullRequests Sample.heap4 0%nat c2 in
  let both' := Formatter.filterPullRequests first'.2 first'.1 c1 in
  Sample.heap4 !! 0%nat
    = Some [Sample.zebra; Sample.alpha; Sample.beta; Sample.gamma]
  /\ JsArray.elements both.2 both.1 = [Sample.zebra; Sample.alpha]
  /\ JsArray.elements both'.2 both'.1 = JsArray.elements both.2 both.1.
Proof.
  intros c1 c2 first both first' both'.
  assert (H : Sample.heap4 !! 0%nat
              = Some [Sample.zebra; Sample.alpha; Sample.beta; Sample.gamma])
    by reflexivity.
  destruct (filter_criteria_compose Sample.heap4 0%nat _ c1 c2 H)
    as (_ & Hcomm & _).
  split; [exact H|]. split; [reflexivity | exact Hcomm].
Defined.

(** X23.  The filter neither adds nor reorders: its result is the input with
    some items left out, so it is never longer than the input. *)
Theorem filter_result_sublist :
  forall (h : gmap nat (list Types.PullRequest)) (prs : nat)
         (items : list Types.PullRequest) (criteria : Types.FilterOptions),
    h !! prs = Some items ->
    let filtered := Formatter.filterPullRequests h prs criteria in
    JsArray.elements filtered.2 filtered.1 `sublist_of` items
    /\ (length (JsArray.elements filtered.2 filtered.1) <= length items)%nat.
Proof.
  intros h prs items criteria Hitems filtered.
  destruct (filterPullRequests_spec h prs criteria items Hitems) as (Hf & _ & _).
  fold filtered in Hf. rewrite (elements_lookup _ _ _ Hf).
  split; [apply filter_sublist | apply sublist_length, filter_sublist].
Qed.

(** X23, witness: the label bug, in whatever case, keeps Gamma alone. *)
Lemma filter_result_sublist_witness :
  let filtered := Formatter.filterPullRequests Sample.heap4 0%nat
                    (Types.mkFilterOptions None (Some "BUG") None) in
  Sample.heap4 !! 0%nat
    = Some [Sample.zebra; Sample.alpha; Sample.beta; Sample.gamma]
  /\ JsArray.elements filtered.2 filtered.1 = [Sample.gamma]
  /\ JsArray.elements filtered.2 filtered.1
       `sublist_of` [Sample.zebra; Sample.alpha; Sample.beta; Sample.gamma].
Proof.
  intros filtered.
  assert (H : Sample.heap4 !! 0%nat
              = Some [Sample.zebra; Sample.alpha; Sample.beta; Sample.gamma])
    by reflexivity.
  split; [exact H|]. split; [reflexivity|].
  exact (proj1 (filter_result_sublist Sample.heap4 0%nat _ _ H)).
Defined.

(** ** Relative dates *)

Lemma div_below (d b q : Z) : 0 < b -> (d / b < q <-> d < b * q).
Proof.
  intros Hb. split.
  - intros H. destruct (Z.lt_ge_cases d (b * q)) as [|Hge]; [done|].
    apply (Z.div_le_lower_bound _ _ _ Hb) in Hge. lia.
  - by apply Z.div_lt_upper_bound.
Qed.

(** X24.  For a date that the host can read, [formatDate] picks the unit by
    the age in milliseconds: minutes below one hour (also for a date in the
    future, with a negative count), hours from one hour to below one day,
    days from one day to below thirty days, the locale's date from thirty
    days on; the count is the age in the unit, rounded down, so hours run
    from 1 to 23 and days from 1 to 29; the unit is plural unless the count
    is exactly 1. *)
Theorem formatDate_units :
  forall (getTime : string -> JsArray.JsNumber)
         (toLocaleDateString : string -> string)
         (now : Z) (dateString : string) (t : Z),
    getTime dateString = Some t ->
    let age := now - t in
    let out := Formatter.formatDate getTime toLocaleDateString now dateString in
    (age < 3600000 ->
     out = pretty (age / 60000) ++ " minute" ++ plural (age / 60000) ++ " ago"
     /\ age / 60000 < 60 /\ (0 <= age -> 0 <= age / 60000))
    /\ (3600000 <= age < 86400000 ->
        out = pretty (age / 3600000) ++ " hour" ++ plural (age / 3600000)
                ++ " ago"
        /\ 1 <= age / 3600000 <= 23)
    /\ (86400000 <= age < 2592000000 ->
        out = pretty (age / 86400000) ++ " day" ++ plural (age / 86400000)
                ++ " ago"
        /\ 1 <= age / 86400000 <= 29)
    /\ (2592000000 <= age -> out = toLocaleDateString dateString).
Proof.
  intros getTime toLocaleDateString now dateString t Ht age out.
  unfold out, Formatter.formatDate. rewrite Ht. fold age. cbv zeta.
  change (1000 * 60 * 60 * 24) with 86400000.
  change (1000 * 60 * 60) with 3600000.
  change (1000 * 60) with 60000.
  pose proof (div_below age 60000 60 eq_refl) as Hm.
  pose proof (div_below age 3600000 24 eq_refl) as Hh.
  pose proof (div_below age 86400000 30 eq_refl) as Hd.
  assert (Hplural : forall n, (if negb (n =? 1)%Z then "s" else "") = plural n).
  { intros n. unfold plural. by destruct (n =? 1)%Z. }
  rewrite !Hplural.
  split_and!.
  - intros Hage. assert (age / 60000 < 60) as Hlt by (apply Hm; lia).
    destruct (Z.ltb_spec (age / 60000) 60); [|lia].
    split; [done|]. split; [done|]. intros. by apply Z.div_pos.
  - intros [Hlo Hhi].
    destruct (Z.ltb_spec (age / 60000) 60) as [Hc|_]; [apply Hm in Hc; lia|].
    assert (age / 3600000 < 24) as Hlt by (apply Hh; lia).
    destruct (Z.ltb_spec (age / 3600000) 24); [|lia].
    split; [done|]. split; [|lia].
    by apply Z.div_le_lower_bound.
  - intros [Hlo Hhi].
    destruct (Z.ltb_spec (age / 60000) 60) as [Hc|_]; [apply Hm in Hc; lia|].
    destruct (Z.ltb_spec (age / 3600000) 24) as [Hc|_]; [apply Hh in Hc; lia|].
    assert (age / 86400000 < 30) as Hlt by (apply Hd; lia).
    destruct (Z.ltb_spec (age / 86400000) 30); [|lia].
    split; [done|]. split; [|lia].
    by apply Z.div_le_lower_bound.
  - intros Hlo.
    destruct (Z.ltb_spec (age / 60000) 60) as [Hc|_]; [apply Hm in Hc; lia|].
    destruct (Z.ltb_spec (age / 3600000) 24) as [Hc|_]; [apply Hh in Hc; lia|].
    destruct (Z.ltb_spec (age / 86400000) 30) as [Hc|_]; [apply Hd in Hc; lia|].
    done.
Qed.

(** X24, witness: a pull request created one hour and one second before. *)
Lemma formatDate_units_witness :
  SampleHost.getTime "2024-03-01T10:00:00Z" = Some 1709287200000
  /\ Formatter.formatDate SampleHost.getTime (fun s => s) 1709290801000
       "2024-03-01T10:00:00Z" = "1 hour ago".
Proof.
  assert (H : SampleHost.getTime "2024-03-01T10:00:00Z" = Some 1709287200000)
    by reflexivity.
  split; [exact H|].
  destruct (formatDate_units SampleHost.getTime (fun s => s) 1709290801000
              "2024-03-01T10:00:00Z" _ H) as (_ & Hhour & _).
  destruct Hhour as [Hout _]; [lia|].
  etransitivity; [exact Hout|]. reflexivity.
Defined.
